(** * A shallow embedding of view.py (mnist-nengo) and its properties.

    Numbers are modelled exactly with [Q]; NumPy arrays as lists (row-major
    for matrices).  Python exceptions are values of [exn], and fallible code
    runs in the [result] monad.  The script is Python 2 code (line 71 uses
    integer [/]): [round] rounds halves away from zero, and slice bounds given
    as floats follow the NumPy of that time, which truncated them toward zero
    (later NumPy releases raise TypeError instead). *)

From Stdlib Require Import String ZArith QArith Qround List Bool Lia.
Import ListNotations.
Open Scope Z_scope.

(** ** Exceptions and the result monad *)

Inductive exn :=
| AssertionError
| IndexError
| KeyError
| ValueError
| TypeError
| ZeroDivisionError
| IOError.

Inductive result (A : Type) : Type :=
| Ok (a : A)
| Raise (e : exn).
Arguments Ok {A} a.
Arguments Raise {A} e.

Definition bind {A B} (m : result A) (k : A -> result B) : result B :=
  match m with
  | Ok a => k a
  | Raise e => Raise e
  end.

Notation "x <- m ;; k" := (bind m (fun x => k))
  (at level 61, m at next level, right associativity).

(** ** Python scalars *)

(** [a[i]] for a non-negative index. *)
Definition py_index {A} (l : list A) (i : nat) : result A :=
  match nth_error l i with
  | Some x => Ok x
  | None => Raise IndexError
  end.

(** Python 2 [round]: halves away from zero. *)
Definition py_round (q : Q) : Z :=
  if Qle_bool 0 q then Qfloor (q + (1#2))%Q else - Qfloor (- q + (1#2))%Q.

(** [int(round(x / dt))]: division by a zero step fails. *)
Definition int_round_div (x dt : Q) : result Z :=
  if Qeq_bool dt 0 then Raise ZeroDivisionError else Ok (py_round (x / dt)%Q).

(** Python's [%] on ints: sign of the divisor, like [Z.modulo]. *)
Definition py_mod (a b : Z) : result Z :=
  if b =? 0 then Raise ZeroDivisionError else Ok (a mod b).

(** A float used as a slice bound: truncated toward zero. *)
Definition float_index (q : Q) : Z := Z.quot (Qnum q) (Zpos (Qden q)).

(** [l[s:]] for an integer [s]. *)
Definition py_slice_from {A} (s : Z) (l : list A) : list A :=
  let n := Z.of_nat (length l) in
  let start := if s <? 0 then Z.max 0 (n + s) else Z.min s n in
  skipn (Z.to_nat start) l.

(** ** NumPy arrays *)

Record ndarray := mk_ndarray { shape : list nat; flat : list Q }.

Definition ndim (a : ndarray) : nat := length (shape a).
Definition size (a : ndarray) : nat := length (flat a).

(** [np.mean] of a 1-D block: the mean of an empty block is NaN ([None]). *)
Definition mean (l : list Q) : option Q :=
  match l with
  | [] => None
  | _ => Some (fold_right Qplus 0 l / inject_Z (Z.of_nat (length l)))%Q
  end.

(** Strict comparison of rationals. *)
Definition Qltb (x y : Q) : bool := negb (Qle_bool y x).

(** [m < cutoff]: a comparison with NaN is False. *)
Definition nan_lt (m : option Q) (cutoff : Q) : bool :=
  match m with
  | Some x => Qltb x cutoff
  | None => false
  end.

(** Rows of [k] consecutive elements. *)
Fixpoint chunks_aux {A} (fuel k : nat) (l : list A) : list (list A) :=
  match fuel with
  | O => []
  | S f =>
      match l with
      | [] => []
      | _ => firstn k l :: chunks_aux f k (skipn k l)
      end
  end.

Definition chunks {A} (k : nat) (l : list A) : list (list A) :=
  chunks_aux (length l) k l.

(** [a.reshape(-1, k)]. *)
Definition reshape_rows (a : ndarray) (k : Z) : result (list (list Q)) :=
  if k <=? 0 then Raise ValueError
  else if negb (Z.of_nat (size a) mod k =? 0) then Raise ValueError
  else Ok (chunks (Z.to_nat k) (flat a)).

(** ** compute_spiking_error (view.py, lines 63-78) *)

Record spiking_state := mk_spiking_state {
  st_test : ndarray;
  st_pres_len : Z;
  st_check_len : Z
}.

(** [test.ndim == 1 or test.ndim == 2 and test.shape[1] == 1] *)
Definition flat_ok (test : ndarray) : bool :=
  (ndim test =? 1)%nat
  || ((ndim test =? 2)%nat && (nth 1 (shape test) 0%nat =? 1)%nat).

(** [dt = float(t[1] - t[0])] *)
Definition sample_step (t : list Q) : result Q :=
  t0 <- py_index t 0 ;;
  t1 <- py_index t 1 ;;
  Ok (t1 - t0)%Q.

(** Lines 64-69: everything before the padding guard. *)
Definition spiking_prefix (t : list Q) (test : ndarray) (pres_time check_time : Q)
  : result spiking_state :=
  if negb (flat_ok test) then Raise AssertionError else
  dt <- sample_step t ;;
  pres_len <- int_round_div pres_time dt ;;
  check_len <- int_round_div check_time dt ;;
  r <- py_mod (Z.of_nat (size test)) pres_len ;;
  if negb (r =? 0) then Raise AssertionError else
  Ok (mk_spiking_state test pres_len check_len).

(** Line 70: [test.size % pres_len != 0]. *)
Definition pad_guard (st : spiking_state) : result bool :=
  r <- py_mod (Z.of_nat (size (st_test st))) (st_pres_len st) ;;
  Ok (negb (r =? 0)).

(** Lines 71-73 (Python 2 integer division): [np.zeros(n)] then
    [test_pad[:test.size] = test], which only succeeds when the slice has
    [test]'s length (a 1-D [test]) or [test] has a single element. *)
Definition pad_body (st : spiking_state) : result ndarray :=
  let test := st_test st in
  let n := Z.of_nat (size test) / st_pres_len st + 1 in
  if n <? 0 then Raise ValueError else
  let m := Z.to_nat n in
  let k := Nat.min (size test) m in
  if ((ndim test =? 1) && (k =? size test))%nat then
    Ok (mk_ndarray [m] (flat test ++ repeat 0%Q (m - size test)))
  else if (size test =? 1)%nat then
    Ok (mk_ndarray [m] (repeat (hd 0%Q (flat test)) k ++ repeat 0%Q (m - k)))
  else Raise ValueError.

(** Lines 76-78: [test.reshape(-1, pres_len)[:, -check_time:]], then the
    mean of each row compared with [cutoff].  Note the slice bound is
    [-check_time], the float argument. *)
Definition spiking_blocks (test : ndarray) (pres_len : Z) (check_time cutoff : Q)
  : result (list bool) :=
  rows <- reshape_rows test pres_len ;;
  let blocks := map (py_slice_from (float_index (- check_time))) rows in
  Ok (map (fun b => nan_lt (mean b) cutoff) blocks).

Definition compute_spiking_error (t : list Q) (test : ndarray)
  (pres_time check_time cutoff : Q) : result (list bool) :=
  st <- spiking_prefix t test pres_time check_time ;;
  g <- pad_guard st ;;
  test' <- (if g then pad_body st else Ok (st_test st)) ;;
  spiking_blocks test' (st_pres_len st) check_time cutoff.

(** The defaults [check_time=0.05, cutoff=0.5]. *)
Definition compute_spiking_error_default (t : list Q) (test : ndarray) (pres_time : Q)
  : result (list bool) :=
  compute_spiking_error t test pres_time (5 # 100) (1 # 2).

(** The window length [round(pres_time/dt)] as the function computes it. *)
Definition window_len (t : list Q) (pres_time : Q) : result Z :=
  dt <- sample_step t ;;
  int_round_div pres_time dt.

(** The inspected length [round(check_time/dt)], computed at line 67. *)
Definition check_window_len (t : list Q) (check_time : Q) : result Z :=
  dt <- sample_step t ;;
  int_round_div check_time dt.

(** The spec's reading of the windowed error: the mean of the last
    [round(check_time/dt)] samples of each window. *)
Definition spiking_error_trailing (t : list Q) (test : ndarray)
  (pres_time check_time cutoff : Q) : result (list bool) :=
  pres_len <- window_len t pres_time ;;
  check_len <- check_window_len t check_time ;;
  rows <- reshape_rows test pres_len ;;
  Ok (map (fun b => nan_lt (mean (py_slice_from (- check_len) b)) cutoff) rows).

(** ** Dense linear algebra *)

Definition Vec := list Q.
Definition Mat := list (list Q).

Definition ncols (m : Mat) : nat :=
  match m with
  | [] => O
  | r :: _ => length r
  end.

(** Every row has the same length: NumPy arrays are never ragged. *)
Definition rectangular (m : Mat) : bool :=
  forallb (fun r => (length r =? ncols m)%nat) m.

Fixpoint vadd (u v : Vec) : Vec :=
  match u, v with
  | x :: u', y :: v' => (x + y)%Q :: vadd u' v'
  | _, _ => []
  end.

(** A row vector times a matrix. *)
Definition vecmat (r : Vec) (w : Mat) : Vec :=
  fold_right (fun aw acc => vadd (map (Qmult (fst aw)) (snd aw)) acc)
    (repeat 0%Q (ncols w)) (combine r w).

(** [np.dot(x, w)] for 2-D operands; an empty batch gives an empty result. *)
Definition dot (x w : Mat) : result Mat :=
  if rectangular x && rectangular w then
    match x with
    | [] => Ok []
    | _ => if (ncols x =? length w)%nat then Ok (map (fun r => vecmat r w) x)
           else Raise ValueError
    end
  else Raise ValueError.

(** [m + b] for a 2-D [m] and a 1-D [b], with NumPy broadcasting. *)
Definition add_bias (m : Mat) (b : Vec) : result Mat :=
  if negb (rectangular m) then Raise ValueError else
  match m with
  | [] => Ok []
  | _ =>
      if (ncols m =? length b)%nat then Ok (map (fun r => vadd r b) m)
      else if (length b =? 1)%nat then Ok (map (map (fun x => x + hd 0 b)%Q) m)
      else if (ncols m =? 1)%nat then Ok (map (fun r => map (fun y => hd 0 r + y)%Q b) m)
      else Raise ValueError
  end.

(** [np.dot(x, w) + b] *)
Definition affine (x w : Mat) (b : Vec) : result Mat :=
  z <- dot x w ;;
  add_bias z b.

(** A vectorized scalar function applied to an array. *)
Definition apply_fn (f : Q -> Q) (m : Mat) : Mat := map (map f) m.

Fixpoint map_result {A B} (f : A -> result B) (l : list A) : result (list B) :=
  match l with
  | [] => Ok []
  | x :: l' => y <- f x ;; ys <- map_result f l' ;; Ok (y :: ys)
  end.

(** [np.argmax] of a row: the first index of the maximum. *)
Fixpoint argmax_aux (r : Vec) (i bi : nat) (bv : Q) : nat :=
  match r with
  | [] => bi
  | x :: r' => if Qltb bv x then argmax_aux r' (S i) i x else argmax_aux r' (S i) bi bv
  end.

Definition argmax (r : Vec) : result nat :=
  match r with
  | [] => Raise ValueError
  | x :: r' => Ok (argmax_aux r' 1 0 x)
  end.

(** [np.argmax(m, axis=1)] *)
Definition argmax_rows (m : Mat) : result (list nat) := map_result argmax m.

(** [np.unique]: the sorted distinct values. *)
Fixpoint insert_uniq (x : Z) (l : list Z) : list Z :=
  match l with
  | [] => [x]
  | y :: l' => if x <? y then x :: l else if x =? y then l else y :: insert_uniq x l'
  end.

Definition unique (l : list Z) : list Z := fold_right insert_uniq [] l.

(** [a != b] on 1-D integer arrays, with broadcasting of a length-1 side. *)
Definition ne_broadcast (a b : list Z) : result (list bool) :=
  if (length a =? length b)%nat then Ok (map (fun xy => negb (fst xy =? snd xy)) (combine a b))
  else if (length a =? 1)%nat then Ok (map (fun y => negb (hd 0 a =? y)) b)
  else if (length b =? 1)%nat then Ok (map (fun x => negb (x =? hd 0 b)) a)
  else Raise ValueError.

(** ** _propup_static and compute_static_error (view.py, lines 14-41) *)

Record static_params := mk_static_params {
  weights : list Mat;
  biases : list Vec;
  Wc : Mat;
  bc : Vec
}.

Section Static.

(** The neuron module's registry [neurons.get_numpy_fn], which lives outside
    view.py: a neuron name and its parameters resolve to a vectorized
    numeric function, applied to every entry of an array. *)
Variable neuron_params : Type.
Variable get_numpy_fn : string -> neuron_params -> result (Q -> Q).

(** The inner [forward] of [_propup_static]: [zip] stops at the shorter list. *)
Fixpoint forward (f : Q -> Q) (x : Mat) (wbs : list (Mat * Vec))
  : result (Mat * list Mat) :=
  match wbs with
  | [] => Ok (x, [])
  | (w, b) :: rest =>
      h <- affine x w b ;;
      p <- forward f (apply_fn f h) rest ;;
      Ok (fst p, apply_fn f h :: snd p)
  end.

Definition propup_static (params : static_params) (images : Mat)
  (neuron : string * neuron_params) : result (list Mat * Mat * Mat) :=
  neuron_fn <- get_numpy_fn (fst neuron) (snd neuron) ;;
  p <- forward neuron_fn images (combine (weights params) (biases params)) ;;
  yc <- affine (fst p) (Wc params) (bc params) ;;
  Ok (snd p, fst p, yc).

Definition compute_static_error (params : static_params) (images : Mat)
  (labels : list Z) (neuron : string * neuron_params) : result (list bool) :=
  r <- propup_static params images neuron ;;
  match r with
  | (_, _, yc) =>
      inds <- argmax_rows yc ;;
      let classes := unique labels in
      predicted <- map_result (py_index classes) inds ;;
      ne_broadcast labels predicted
  end.

(** The spec's layer recurrence [x_{i+1} = f(x_i . W_i + b_i)], as a relation
    between the input, the (W, b) pairs and the produced layers. *)
Inductive layer_seq (f : Q -> Q) : Mat -> list (Mat * Vec) -> list Mat -> Prop :=
| layer_seq_nil x : layer_seq f x [] []
| layer_seq_cons x w b ps h ys :
    affine x w b = Ok h ->
    layer_seq f (apply_fn f h) ps ys ->
    layer_seq f x ((w, b) :: ps) (apply_fn f h :: ys).

End Static.

(** ** The entry point (view.py, lines 164-206) *)

(** What a run leaves behind: its printed text and figures, and how it ended. *)
Inductive event :=
| Stdout (s : string)
| Figure.

Record run := mk_run { events : list event; outcome : result unit }.

Definition failed (e : exn) : run := mk_run [] (Raise e).

Section EntryPoint.

(** The values stored in the archive; [np.load] gives a key-value container. *)
Variable V : Type.
Definition archive := list (string * V).

Definition has_key (d : archive) (k : string) : bool :=
  existsb (fun kv => String.eqb (fst kv) k) d.

(** [data[k]] *)
Definition getitem (d : archive) (k : string) : result V :=
  match find (fun kv => String.eqb (fst kv) k) d with
  | Some kv => Ok (snd kv)
  | None => Raise KeyError
  end.

Definition static_keys : list string := ["weights"; "biases"; "Wc"; "bc"]%string.
Definition spiking_keys : list string := ["t"; "classifier"; "test"]%string.

(** The two pipelines after dispatch: lines 170-192 (static), the
    [compute_spiking_error] call with its print (lines 198-200), and the
    [view_spiking] call (line 204). *)
Variable static_branch : archive -> run.
Variable spiking_error_branch : V -> V -> V -> run.
Variable view_spiking_branch : V -> V -> V -> V -> V -> V -> run.

(** [path_exists] is [os.path.exists(args.loadfile)], [d] the loaded archive. *)
Definition main (path_exists : bool) (d : archive) : run :=
  if negb path_exists then failed IOError
  else if forallb (has_key d) static_keys then static_branch d
  else if forallb (has_key d) spiking_keys then
    match (t <- getitem d "t" ;; test <- getitem d "test" ;;
           pt <- getitem d "pres_time" ;; Ok (t, test, pt))%string with
    | Raise e => failed e
    | Ok (t, test, pt) =>
        let r1 := spiking_error_branch t test pt in
        match outcome r1 with
        | Raise _ => r1
        | Ok _ =>
            match (t <- getitem d "t" ;; im <- getitem d "images" ;;
                   lb <- getitem d "labels" ;; cl <- getitem d "classifier" ;;
                   ts <- getitem d "test" ;; pt <- getitem d "pres_time" ;;
                   Ok (t, im, lb, cl, ts, pt))%string with
            | Raise e => mk_run (events r1) (Raise e)
            | Ok (t, im, lb, cl, ts, pt) =>
                let r2 := view_spiking_branch t im lb cl ts pt in
                mk_run (events r1 ++ events r2) (outcome r2)
            end
        end
    end
  else failed ValueError.

End EntryPoint.

(** ** view_spiking (view.py, lines 81-152) *)

(** Errors of the view: Python exceptions, and the OverflowError of
    [int(inf)]. *)
Inductive view_exn :=
| PyError (e : exn)
| OverflowError.

Inductive vresult (A : Type) : Type :=
| VOk (a : A)
| VRaise (e : view_exn).
Arguments VOk {A} a.
Arguments VRaise {A} e.

Definition lift {A} (r : result A) : vresult A :=
  match r with
  | Ok a => VOk a
  | Raise e => VRaise (PyError e)
  end.

Definition vbind {A B} (m : vresult A) (k : A -> vresult B) : vresult B :=
  match m with
  | VOk a => k a
  | VRaise e => VRaise e
  end.

Notation "x <-- m ;;; k" := (vbind m (fun x => k))
  (at level 61, m at next level, right associativity).

(** [enumerate]: [f] sees each element with its index, counted from [i]. *)
Fixpoint mapi_from {A B} (f : nat -> A -> B) (i : nat) (l : list A) : list B :=
  match l with
  | [] => []
  | x :: l' => f i x :: mapi_from f (S i) l'
  end.

(** [(layer > c).mean()]: the fraction of entries above [c] (NaN when the
    layer is empty). *)
Definition fraction_above (c : Q) (layer : Mat) : option Q :=
  mean (map (fun x => if Qltb c x then 1%Q else 0%Q) (concat layer)).

(** [(layer > 0).mean() / dt]; a non-finite value (a NaN mean or a division
    by a zero step) is [None]. *)
Definition spike_rate (dt : Q) (layer : Mat) : option Q :=
  match fraction_above 0 layer with
  | None => None
  | Some f => if Qeq_bool dt 0 then None else Some (f / dt)%Q
  end.

(** [t[-1]] *)
Definition py_last {A} (l : list A) : result A :=
  match rev l with
  | [] => Raise IndexError
  | x :: _ => Ok x
  end.

(** [l[:n]] for an integer [n]. *)
Definition py_slice_to {A} (n : Z) (l : list A) : list A :=
  if n <? 0 then firstn (Z.to_nat (Z.max 0 (Z.of_nat (length l) + n))) l
  else firstn (Z.to_nat n) l.

(** [n_pres = min(int(t[-1] / pres_time), max_pres)]: the NumPy division
    by zero gives inf (or NaN for 0/0), which [int] refuses. *)
Definition presentations (t_last pres_time : Q) (max_pres : Z) : vresult Z :=
  if Qeq_bool pres_time 0 then
    if Qeq_bool t_last 0 then VRaise (PyError ValueError) else VRaise OverflowError
  else VOk (Z.min (float_index (t_last / pres_time)) max_pres).

(** [mask.nonzero()]: the positions of the True entries, counted from [i]. *)
Fixpoint nonzero_from (i : nat) (m : list bool) : list nat :=
  match m with
  | [] => []
  | b :: m' => if b then i :: nonzero_from (S i) m' else nonzero_from (S i) m'
  end.

(** [xs[mask]] with a boolean mask over the first axis, in the NumPy whose
    float slice bounds are modelled above: a mask whose length differs from
    the first axis is not refused (releases 1.10 to 1.12 only warn) but read
    as the integer index [mask.nonzero()], so a kept position past the end of
    [xs] raises IndexError and rows past the end of the mask are dropped. *)
Definition bool_mask {A} (m : list bool) (xs : list A) : result (list A) :=
  map_result (py_index xs) (nonzero_from 0 m).

(** [image.reshape(28, 28)] *)
Definition reshape28 (img : Vec) : result Mat :=
  if (length img =? 784)%nat then Ok (map (fun r => firstn 28 (skipn (28 * r) img)) (seq 0 28))
  else Raise ValueError.

(** [allimage[:, c0:c0+28] = blk], row by row. *)
Definition set_block (canvas blk : Mat) (c0 : nat) : Mat :=
  map (fun rb => firstn c0 (fst rb) ++ snd rb ++ skipn (c0 + 28) (fst rb))
    (combine canvas blk).

(** Lines 108-110: a 28-row strip, one 28-column block per image. *)
Definition allimage (images : list Vec) : result Mat :=
  let canvas := repeat (repeat 0%Q (28 * length images)) 28 in
  fold_left (fun acc (iimg : nat * Vec) =>
      c <- acc ;;
      blk <- reshape28 (snd iimg) ;;
      Ok (set_block c blk (fst iimg * 28)))
    (combine (seq 0 (length images)) images) (Ok canvas).

(** [np.arange(0, stop, step)], whose points [plot_bars] draws, kept as its
    arguments: NumPy computes the number of points, [ceil(stop / step)], in
    floating point, which exact arithmetic does not reproduce, so the figure
    records the call rather than the points.  A zero step raises
    ZeroDivisionError. *)
Record arange_call := mk_arange_call {
  arange_stop : Q;
  arange_step : Q
}.

Definition arange0 (stop step : Q) : result arange_call :=
  if Qeq_bool step 0 then Raise ZeroDivisionError else Ok (mk_arange_call stop step).

(** [plot_bars]: dashed lines at [np.arange(0, t[-1], pres_time)], where [t]
    is read from the enclosing scope when called, i.e. after line 103 has
    rebound it to the truncated axis. *)
Definition plot_bars (t : list Q) (pres_time : Q) : result arange_call :=
  t_last <- py_last t ;;
  arange0 t_last pres_time.

(** The subplots of the figure. *)
Inductive panel :=
| ImageStrip (img : Mat)
| Raster (t : list Q) (spikes : Mat) (bars : arange_call) (layer_no n_neurons : nat)
| Trace (t : list Q) (ys : list Vec) (bars : arange_call) (ylabel : string)
    (ylim : option (Q * Q)).

(** [next_subplot]: its default argument [i=np.array([0])] is one array,
    created when [view_spiking] defines the function and incremented by
    every call; the call returns subplot number [i]. *)
Definition next_subplot (i : nat) : nat * nat := (S i, S i).

Definition max_neurons : nat := 200.

(** One raster subplot per layer (lines 124-132), threading the counter. *)
Fixpoint raster_panels (i : nat) (t : list Q) (bars : arange_call) (k : nat) (layers : list Mat)
  : nat * list (nat * panel) :=
  match layers with
  | [] => (i, [])
  | layer :: rest =>
      let n_neurons := ncols layer in
      let (i1, idx) := next_subplot i in
      let shown := if (max_neurons <? n_neurons)%nat then map (firstn max_neurons) layer
                   else layer in
      let (i2, ps) := raster_panels i1 t bars (S k) rest in
      (i2, (idx, Raster t shown bars (S k) n_neurons) :: ps)
  end.

Record spiking_figure := mk_spiking_figure {
  fig_panels : list (nat * panel);
  fig_saved : option string
}.

(** What [view_spiking] prints (the firing rates, numbered from 1) and the
    figure it shows, or the error it raises. *)
Record spiking_view := mk_spiking_view {
  printed_rates : list (nat * option Q);
  figure : vresult spiking_figure
}.

Definition view_spiking (t : list Q) (images : list Vec) (labels : list Z)
  (classifier test : list Vec) (pres_time : Q) (max_pres : Z) (layers : list Mat)
  (savefile : option string) : spiking_view :=
  match sample_step t with
  | Raise e => mk_spiking_view [] (VRaise (PyError e))
  | Ok dt =>
      let rates := mapi_from (fun i layer => (S i, spike_rate dt layer)) 0 layers in
      mk_spiking_view rates (
        t_last <-- lift (py_last t) ;;;
        n_pres <-- presentations t_last pres_time max_pres ;;;
        let images := py_slice_to n_pres images in
        let labels := py_slice_to n_pres labels in
        let max_t := (inject_Z n_pres * pres_time)%Q in
        let tmask := map (fun x => Qle_bool x max_t) t in
        t' <-- lift (bool_mask tmask t) ;;;
        classifier' <-- lift (bool_mask tmask classifier) ;;;
        test' <-- lift (bool_mask tmask test) ;;;
        layers' <-- lift (map_result (bool_mask tmask) layers) ;;;
        img <-- lift (allimage images) ;;;
        (* every call of plot_bars reads the same truncated [t] *)
        bars <-- lift (plot_bars t' pres_time) ;;;
        let (i0, k0) := next_subplot 0 in
        let (i1, rasters) := raster_panels i0 t' bars 0 layers' in
        let (i2, k2) := next_subplot i1 in
        let (i3, k3) := next_subplot i2 in
        VOk (mk_spiking_figure
          ((k0, ImageStrip img) :: rasters ++
           [(k2, Trace t' classifier' bars "class" None);
            (k3, Trace t' test' bars "correct" (Some ((-1 # 10)%Q, (11 # 10)%Q)))])
          savefile))
  end.

(** ** view_static (view.py, lines 44-60) *)

Inductive static_event :=
| StaticHeader (s : string)
| StaticErrors (errs : list bool)
| LayerLine (i : nat) (m sp0 sp1 : option Q)
| ClassifierLine (yc : Mat)
| Histograms (rows : nat) (data : list (list Q))
| StaticShow.

Record static_run := mk_static_run {
  s_events : list static_event;
  s_outcome : result unit
}.

(** A Python dict of neuron parameters. *)
Definition pydict := list (string * Q).

Section StaticView.

Variable get_numpy_fn : string -> pydict -> result (Q -> Q).

(** The classifier line prints the mean, column-wise std, min and max of
    [yc] ([ClassifierLine yc]); [yc.min()] of an empty array raises
    ValueError. *)
Definition view_static (params : static_params) (images : Mat) (labels : list Z)
  (neuron : string * pydict) : static_run :=
  match propup_static _ get_numpy_fn params images neuron with
  | Raise e => mk_static_run [] (Raise e)
  | Ok (layers, codes, yc) =>
      let lines := mapi_from (fun i layer =>
        LayerLine i (mean (concat layer)) (fraction_above 0 layer) (fraction_above 1 layer))
        0 layers in
      match concat yc with
      | [] => mk_static_run lines (Raise ValueError)
      | _ => mk_static_run
               (lines ++ [ClassifierLine yc;
                          Histograms (length layers) (map (@concat Q) layers); StaticShow])
               (Ok tt)
      end
  end.

(** ** The static branch of the entry point (view.py, lines 170-192) *)

(** [d.pop(k)] *)
Definition dict_pop (d : pydict) (k : string) : result (Q * pydict) :=
  match find (fun kv => String.eqb (fst kv) k) d with
  | None => Raise KeyError
  | Some kv => Ok (snd kv, filter (fun kv' => negb (String.eqb (fst kv') k)) d)
  end.

(** Lines 173-174. *)
Definition default_neuron_params : pydict :=
  [("sigma", 1 # 100); ("tau_rc", 2 # 100); ("tau_ref", 2 # 1000);
   ("gain", 1); ("bias", 1); ("amp", 100 # 6304)]%string%Q.

(** [neuron_entry] is [data['neuron']] when the archive has it; [test_set]
    is the testing set returned by [mnist.load]. *)
Definition static_branch (params : static_params)
  (neuron_entry : option (string * pydict)) (test_set : Mat * list Z) : static_run :=
  let neuron_params :=
    match neuron_entry with
    | Some (_, p) => p
    | None => default_neuron_params
    end in
  let images := fst test_set in
  let labels := snd test_set in
  if negb (length (unique labels) =? length (bc params))%nat
  then mk_static_run [] (Raise AssertionError) else
  (* neuron = ('softlif', dict(neuron_params)): a copy *)
  match compute_static_error _ get_numpy_fn params images labels ("softlif", neuron_params)%string with
  | Raise e => mk_static_run [] (Raise e)
  | Ok errs1 =>
      let ev1 := [StaticHeader "----- Static network with softlif -----"; StaticErrors errs1]%string in
      (* neuron = ('lif', dict(neuron_params)); neuron[1].pop('sigma') *)
      match dict_pop neuron_params "sigma" with
      | Raise e => mk_static_run ev1 (Raise e)
      | Ok (_, lif_params) =>
          match compute_static_error _ get_numpy_fn params images labels ("lif", lif_params)%string with
          | Raise e => mk_static_run ev1 (Raise e)
          | Ok errs2 =>
              let ev2 := ev1 ++ [StaticHeader "----- Static network with lif -----"; StaticErrors errs2]%string in
              let v := view_static params images labels ("lif", lif_params)%string in
              mk_static_run (ev2 ++ s_events v) (s_outcome v)
          end
      end
  end.

End StaticView.

(** Row [r] of a 784-pixel image read as 28 x 28, and the image strip built
    by [allimage] after its first images [P], with [z] blocks still blank. *)

Definition image_row (r : nat) (img : Vec) : Vec := firstn 28 (skipn (28 * r) img).

Definition strip (P : list Vec) (z : nat) : Mat :=
  map (fun r => concat (map (image_row r) P) ++ repeat 0%Q (28 * z)) (seq 0 28).

(** ** Concrete inputs *)

(** A time axis sampled every 10 ms. *)
Definition ex_t : list Q := [0; 1 # 100]%Q.

(** One 1 s presentation whose last 50 ms are correct and the rest wrong. *)
Definition ex_late_signal : ndarray :=
  mk_ndarray [100%nat] (repeat 0%Q 95 ++ repeat 1%Q 5).

(** Two seconds of a signal that is right throughout. *)
Definition ex_ones : ndarray := mk_ndarray [200%nat] (repeat 1%Q 200).

(** A rectifying nonlinearity, to run the static pipeline on examples. *)
Definition relu (x : Q) : Q := if Qle_bool 0 x then x else 0%Q.

Definition relu_registry (name : string) (u : unit) : result (Q -> Q) := Ok relu.

Definition ex_neuron : string * unit := ("softlif"%string, tt).

(** One hidden layer of two units and a two-class classifier. *)
Definition ex_hidden_params : static_params :=
  mk_static_params [[[1; -1]; [0; 1]]%Q] [[0; 1]%Q] [[1; 0]; [0; 1]]%Q [0; 0]%Q.

(** No hidden layer and an identity classifier: one-hot images are their
    own scores. *)
Definition ex_onehot_params : static_params :=
  mk_static_params [] [] [[1; 0]; [0; 1]]%Q [0; 0]%Q.

Definition ex_images : Mat := [[1; 0]; [0; 1]]%Q.
Definition ex_labels : list Z := [3; 5].

(** A classifier with two outputs on one-pixel images and no hidden layer. *)
Definition ex_two_class_params : static_params :=
  mk_static_params [] [] [[0; 1]%Q] [0; 0]%Q.

(** The same with a single bias entry, which NumPy broadcasts over both
    outputs. *)
Definition ex_broadcast_params : static_params :=
  mk_static_params [] [] [[0; 1]%Q] [0]%Q.

(** The rectifier for every neuron name, with dict-valued parameters. *)
Definition relu_dict_registry (name : string) (p : pydict) : result (Q -> Q) := Ok relu.

(** A blank 28 x 28 image, flattened. *)
Definition ex_blank_image : Vec := repeat 0%Q 784.

(** The arguments of a spiking run of two 10 ms steps, one 10 ms presentation
    and one layer of two neurons. *)
Definition ex_view : spiking_view :=
  view_spiking ex_t [ex_blank_image] [7] [[0]; [1]]%Q [[1]; [1]]%Q (1 # 100) 20
    [ex_images] None.

(** A layer of 201 neurons over the two samples of [ex_t], one neuron more
    than a raster shows. *)
Definition ex_wide_layer : Mat := [repeat 1%Q 201; repeat 0%Q 201].

Definition ex_wide_view : spiking_view :=
  view_spiking ex_t [ex_blank_image] [7] [[0]; [1]]%Q [[1]; [1]]%Q (1 # 100) 20 [ex_wide_layer] None.

(** ** Properties of compute_spiking_error *)

Lemma bind_ok {A B} (m : result A) (k : A -> result B) a :
  m = Ok a -> bind m k = k a.
Proof. intros ->; reflexivity. Qed.

Lemma int_round_div_ok x dt z :
  int_round_div x dt = Ok z -> forall y, int_round_div y dt = Ok (py_round (y / dt)).
Proof.
  unfold int_round_div; destruct (Qeq_bool dt 0); [discriminate | reflexivity].
Qed.

Lemma spiking_prefix_inv t test pt ct st :
  spiking_prefix t test pt ct = Ok st ->
  flat_ok test = true /\ st_test st = test /\ window_len t pt = Ok (st_pres_len st) /\
  st_pres_len st <> 0 /\ Z.of_nat (size test) mod st_pres_len st = 0.
Proof.
  unfold spiking_prefix, window_len.
  destruct (flat_ok test); [|discriminate]; simpl.
  destruct (sample_step t) as [dt|e]; [|discriminate]; simpl.
  destruct (int_round_div pt dt) as [pl|e]; [|discriminate]; simpl.
  destruct (int_round_div ct dt) as [cl|e]; [|discriminate]; simpl.
  unfold py_mod; destruct (pl =? 0) eqn:Hpl; [discriminate|]; simpl.
  destruct (Z.of_nat (size test) mod pl =? 0) eqn:Hm; [|discriminate]; simpl.
  intros H; inversion H; subst; simpl.
  repeat split; try reflexivity; lia.
Qed.

(** When the window length is known, non-zero and divides the size of a flat
    signal, the function is the reshape-and-slice of lines 76-78. *)
Lemma compute_spiking_error_blocks t test pt ct co pl :
  flat_ok test = true -> window_len t pt = Ok pl -> pl <> 0 ->
  Z.of_nat (size test) mod pl = 0 ->
  compute_spiking_error t test pt ct co = spiking_blocks test pl ct co.
Proof.
  intros Hf Hw Hpl Hm.
  unfold compute_spiking_error, spiking_prefix.
  unfold window_len in Hw.
  rewrite Hf; simpl.
  destruct (sample_step t) as [dt|e]; [|discriminate]; simpl in *.
  rewrite Hw; simpl.
  rewrite (int_round_div_ok _ _ _ Hw ct); simpl.
  unfold py_mod; replace (pl =? 0) with false by lia; simpl.
  rewrite Hm; simpl.
  unfold pad_guard, py_mod; simpl.
  replace (pl =? 0) with false by lia; simpl.
  rewrite Hm; reflexivity.
Qed.

Lemma compute_spiking_error_inv t test pt ct co errs :
  compute_spiking_error t test pt ct co = Ok errs ->
  exists pl, flat_ok test = true /\ window_len t pt = Ok pl /\ pl <> 0 /\
    Z.of_nat (size test) mod pl = 0 /\ spiking_blocks test pl ct co = Ok errs.
Proof.
  unfold compute_spiking_error.
  destruct (spiking_prefix t test pt ct) as [st|e] eqn:Hp; [|discriminate]; simpl.
  destruct (spiking_prefix_inv _ _ _ _ _ Hp) as (Hf & Ht & Hw & Hpl & Hm).
  unfold pad_guard, py_mod; rewrite Ht.
  replace (st_pres_len st =? 0) with false by lia; simpl.
  rewrite Hm; simpl.
  intros H; exists (st_pres_len st); auto.
Qed.

Lemma spiking_blocks_no_assert test pl ct co :
  spiking_blocks test pl ct co <> Raise AssertionError.
Proof.
  unfold spiking_blocks, reshape_rows.
  destruct (pl <=? 0); [discriminate|].
  destruct (negb _); discriminate.
Qed.

(** Chunks. *)

Lemma chunks_aux_length {A} (k m : nat) : forall fuel (l : list A),
  (0 < k)%nat -> length l = (m * k)%nat -> (m <= fuel)%nat ->
  length (chunks_aux fuel k l) = m.
Proof.
  induction m as [|m IH]; intros fuel l Hk Hl Hf.
  - destruct fuel; simpl; [reflexivity|].
    destruct l; [reflexivity | simpl in Hl; lia].
  - destruct fuel as [|fuel]; [lia|].
    destruct l as [|x l']; [simpl in Hl; lia|].
    simpl chunks_aux. cbn [length].
    rewrite (IH fuel (skipn k (x :: l'))); [reflexivity | exact Hk | | lia].
    rewrite length_skipn; lia.
Qed.

Lemma Forall_firstn_skipn {A} (P : A -> Prop) n l :
  Forall P l -> Forall P (firstn n l) /\ Forall P (skipn n l).
Proof.
  intros H; rewrite <- (firstn_skipn n l) in H.
  apply Forall_app in H; exact H.
Qed.

Lemma chunks_aux_Forall {A} (P : A -> Prop) k : forall fuel l,
  Forall P l -> Forall (Forall P) (chunks_aux fuel k l).
Proof.
  induction fuel as [|fuel IH]; intros l Hl; simpl; [constructor|].
  destruct l as [|x l']; [constructor|].
  destruct (Forall_firstn_skipn P k _ Hl) as [H1 H2].
  constructor; [exact H1 | apply IH; exact H2].
Qed.

Lemma chunks_aux_nonempty {A} k : (0 < k)%nat -> forall fuel (l : list A),
  Forall (fun b => b <> []) (chunks_aux fuel k l).
Proof.
  intros Hk; induction fuel as [|fuel IH]; intros l; simpl; [constructor|].
  destruct l as [|x l']; [constructor|].
  constructor; [|apply IH].
  destruct k; [lia|]; discriminate.
Qed.

Lemma chunks_count (l : list Q) pl :
  0 < pl -> Z.of_nat (length l) mod pl = 0 ->
  length (chunks (Z.to_nat pl) l) = Z.to_nat (Z.of_nat (length l) / pl).
Proof.
  intros Hpl Hm; unfold chunks.
  assert (Hd : Z.of_nat (length l) = pl * (Z.of_nat (length l) / pl)).
  { rewrite (Z.div_mod (Z.of_nat (length l)) pl) at 1 by lia; lia. }
  assert (Hq : 0 <= Z.of_nat (length l) / pl) by (apply Z.div_pos; lia).
  apply chunks_aux_length; [lia | | ].
  - apply Nat2Z.inj; rewrite Nat2Z.inj_mul, !Z2Nat.id by lia; lia.
  - apply Nat2Z.inj_le; rewrite Z2Nat.id by lia; nia.
Qed.

Lemma map_const {A B} (g : A -> B) v l :
  Forall (fun x => g x = v) l -> map g l = repeat v (length l).
Proof. induction 1; simpl; congruence. Qed.

Lemma sum_const (l : list Q) c :
  Forall (fun x => x == c)%Q l ->
  (fold_right Qplus 0 l == inject_Z (Z.of_nat (length l)) * c)%Q.
Proof.
  induction 1 as [|x l Hx _ IH]; [reflexivity|].
  cbn [fold_right length].
  rewrite Hx, IH, Nat2Z.inj_succ, <- Z.add_1_r, inject_Z_plus; ring.
Qed.

Lemma mean_const (l : list Q) c :
  l <> [] -> Forall (fun x => x == c)%Q l ->
  exists m, mean l = Some m /\ (m == c)%Q.
Proof.
  intros Hne Hl.
  assert (Hn : ~ (inject_Z (Z.of_nat (length l)) == 0)%Q).
  { destruct l; [congruence|]. unfold Qeq; simpl; lia. }
  destruct l as [|x l']; [congruence|].
  eexists; split; [reflexivity|].
  rewrite (sum_const _ c Hl). field. exact Hn.
Qed.

Lemma float_index_nonpos ct : (0 <= ct)%Q -> float_index (- ct) <= 0.
Proof.
  destruct ct as [n d]; unfold Qle, float_index; simpl; intros H.
  rewrite Z.quot_opp_l by lia.
  assert (0 <= Z.quot n (Zpos d)) by (apply Z.quot_pos; lia).
  lia.
Qed.

Lemma py_slice_from_nonempty {A} s (b : list A) :
  s <= 0 -> b <> [] -> py_slice_from s b <> [].
Proof.
  intros Hs Hb; unfold py_slice_from.
  assert (Hlen : (0 < length b)%nat) by (destruct b; [congruence | simpl; lia]).
  intros E; apply (f_equal (@length A)) in E.
  rewrite length_skipn in E; simpl in E.
  destruct (s <? 0) eqn:Hlt; lia.
Qed.

Lemma py_slice_from_Forall {A} (P : A -> Prop) s b :
  Forall P b -> Forall P (py_slice_from s b).
Proof. intros H; apply (Forall_firstn_skipn P _ _ H). Qed.

(** On a signal whose samples all equal [c], every window gets the same mark. *)
Lemma spiking_blocks_const test pl ct co c v :
  0 < pl -> Z.of_nat (size test) mod pl = 0 -> (0 <= ct)%Q ->
  Forall (fun x => x == c)%Q (flat test) ->
  (forall m, (m == c)%Q -> Qltb m co = v) ->
  spiking_blocks test pl ct co = Ok (repeat v (Z.to_nat (Z.of_nat (size test) / pl))).
Proof.
  intros Hpl Hm Hct Hc Hv.
  unfold spiking_blocks, reshape_rows.
  replace (pl <=? 0) with false by lia; rewrite Hm; simpl.
  f_equal.
  rewrite map_map, map_const with (v := v).
  - unfold size; rewrite chunks_count; auto.
  - unfold chunks.
    pose proof (chunks_aux_Forall _ (Z.to_nat pl) (length (flat test)) _ Hc) as HF.
    pose proof (chunks_aux_nonempty (Z.to_nat pl) ltac:(lia) (length (flat test)) (flat test)) as HN.
    induction (chunks_aux (length (flat test)) (Z.to_nat pl) (flat test)) as [|b bs IH];
      [constructor|].
    inversion HF as [|? ? HFb HFbs]; inversion HN as [|? ? HNb HNbs]; subst.
    constructor; [|apply IH; assumption].
    destruct (mean_const (py_slice_from (float_index (- ct)) b) c) as (m & Hmean & Hmc).
    + apply py_slice_from_nonempty; [apply float_index_nonpos; exact Hct | exact HNb].
    + apply py_slice_from_Forall; exact HFb.
    + rewrite Hmean; simpl; apply Hv; exact Hmc.
Qed.

Lemma spiking_blocks_length test pl ct co errs :
  spiking_blocks test pl ct co = Ok errs ->
  0 < pl /\ Z.of_nat (size test) mod pl = 0 /\
  length errs = Z.to_nat (Z.of_nat (size test) / pl).
Proof.
  unfold spiking_blocks, reshape_rows.
  destruct (pl <=? 0) eqn:Hpl; [discriminate|].
  destruct (Z.of_nat (size test) mod pl =? 0) eqn:Hm; [|discriminate].
  simpl; intros H; inversion H; subst.
  rewrite !length_map; unfold size in *; rewrite chunks_count; lia.
Qed.

(** ** Claims about compute_spiking_error *)

(** C1 (code_bug): line 67 computes [check_len = round(check_time/dt)] but
    line 76 slices with [-check_time], the float.  With [pres_time = 1.0] and
    [dt = 0.01] the window is 100 samples and [check_len] is 5, yet on a
    window that is wrong for 95 samples and right for its last 5 the code
    averages the whole window and marks it as an error, where the mean of
    the last 5 samples would not. *)
Theorem spiking_error_late_signal :
  window_len ex_t 1 = Ok 100 /\
  check_window_len ex_t (5 # 100) = Ok 5 /\
  compute_spiking_error_default ex_t ex_late_signal 1 = Ok [true] /\
  spiking_error_trailing ex_t ex_late_signal 1 (5 # 100) (1 # 2) = Ok [false].
Proof. vm_compute. repeat split; reflexivity. Qed.

(** C3, counterexample: with a 1 ms presentation sampled every 10 ms the
    window length rounds to 0; 200 samples are not a multiple of it, yet the
    size check raises ZeroDivisionError rather than an assertion. *)
Lemma spiking_error_zero_window :
  window_len ex_t (1 # 1000) = Ok 0 /\
  compute_spiking_error ex_t ex_ones (1 # 1000) (5 # 100) (1 # 2) = Raise ZeroDivisionError.
Proof. vm_compute. split; reflexivity. Qed.

(** C3 (amended): a signal that is neither 1-D nor a single column always
    fails the first assertion.  For a flat signal and a time axis giving a
    non-zero window length [round(pres_time/dt)], the function fails with an
    assertion exactly when [test.size] is not a multiple of that length; a
    zero window length makes the modulo raise ZeroDivisionError instead. *)
Theorem spiking_error_assertions t test pt ct co :
  (flat_ok test = false -> compute_spiking_error t test pt ct co = Raise AssertionError) /\
  (forall pl, flat_ok test = true -> window_len t pt = Ok pl ->
     (pl = 0 -> compute_spiking_error t test pt ct co = Raise ZeroDivisionError) /\
     (pl <> 0 ->
        (compute_spiking_error t test pt ct co = Raise AssertionError <->
         Z.of_nat (size test) mod pl <> 0))).
Proof.
  split.
  - intros Hf; unfold compute_spiking_error, spiking_prefix; rewrite Hf; reflexivity.
  - intros pl Hf Hw.
    assert (Hpre : exists dt, sample_step t = Ok dt /\ int_round_div pt dt = Ok pl).
    { unfold window_len in Hw; destruct (sample_step t) as [dt|e]; [|discriminate].
      exists dt; auto. }
    destruct Hpre as (dt & Hdt & Hpl).
    assert (Hpref : spiking_prefix t test pt ct = bind (py_mod (Z.of_nat (size test)) pl)
      (fun r => if negb (r =? 0) then Raise AssertionError
                else Ok (mk_spiking_state test pl (py_round (ct / dt))))).
    { unfold spiking_prefix; rewrite Hf; simpl; rewrite Hdt; simpl; rewrite Hpl; simpl.
      rewrite (int_round_div_ok _ _ _ Hpl ct); reflexivity. }
    split.
    + intros ->; unfold compute_spiking_error; rewrite Hpref; reflexivity.
    + intros Hnz; split.
      * intros E. intros Hm.
        rewrite (compute_spiking_error_blocks t test pt ct co pl Hf Hw Hnz Hm) in E.
        exact (spiking_blocks_no_assert _ _ _ _ E).
      * intros Hm; unfold compute_spiking_error; rewrite Hpref.
        unfold py_mod; replace (pl =? 0) with false by lia; simpl.
        replace (Z.of_nat (size test) mod pl =? 0) with false by lia; reflexivity.
Qed.

(** C4: with a time axis and presentation duration whose window length is
    positive and divides the signal length, and any non-negative
    [check_time] (the default 0.05 included), an all-ones signal gives an
    all-False vector and an all-zeros signal an all-True vector for the
    default cutoff 0.5. *)
Theorem spiking_error_ones_zeros t test pt ct pl :
  flat_ok test = true -> window_len t pt = Ok pl -> 0 < pl ->
  Z.of_nat (size test) mod pl = 0 -> (0 <= ct)%Q ->
  (Forall (fun x => x == 1)%Q (flat test) ->
   compute_spiking_error t test pt ct (1 # 2) =
     Ok (repeat false (Z.to_nat (Z.of_nat (size test) / pl)))) /\
  (Forall (fun x => x == 0)%Q (flat test) ->
   compute_spiking_error t test pt ct (1 # 2) =
     Ok (repeat true (Z.to_nat (Z.of_nat (size test) / pl)))).
Proof.
  intros Hf Hw Hpl Hm Hct.
  rewrite (compute_spiking_error_blocks t test pt ct (1 # 2) pl Hf Hw ltac:(lia) Hm).
  split; intros Hc; apply (spiking_blocks_const _ _ _ _ _ _ Hpl Hm Hct Hc);
    intros m Hmc; unfold Qltb.
  - destruct (Qle_bool (1 # 2) m) eqn:E; [reflexivity|].
    exfalso; assert (Hle : (1 # 2 <= m)%Q) by (rewrite Hmc; unfold Qle; simpl; lia).
    apply Qle_bool_iff in Hle; congruence.
  - destruct (Qle_bool (1 # 2) m) eqn:E; [|reflexivity].
    apply Qle_bool_iff in E; rewrite Hmc in E; unfold Qle in E; simpl in E; lia.
Qed.

(** C5: whenever execution reaches the padding guard of line 70, the
    assertion of line 69 has established [test.size % pres_len == 0], so the
    guard is False and the padding body never runs. *)
Theorem pad_branch_unreachable t test pt ct st :
  spiking_prefix t test pt ct = Ok st ->
  Z.of_nat (size (st_test st)) mod st_pres_len st = 0 /\ pad_guard st = Ok false.
Proof.
  intros H; destruct (spiking_prefix_inv _ _ _ _ _ H) as (_ & Ht & _ & Hpl & Hm).
  rewrite Ht; split; [exact Hm|].
  unfold pad_guard, py_mod; rewrite Ht.
  replace (st_pres_len st =? 0) with false by lia; simpl; rewrite Hm; reflexivity.
Qed.

(** C9: every vector the function returns has one entry per window,
    [test.size / pres_len] of them; and on a flat signal whose size is a
    multiple of a positive window length it does return one. *)
Theorem spiking_error_one_per_window t test pt ct co :
  (forall errs, compute_spiking_error t test pt ct co = Ok errs ->
   exists pl, window_len t pt = Ok pl /\ 0 < pl /\ Z.of_nat (size test) mod pl = 0 /\
     length errs = Z.to_nat (Z.of_nat (size test) / pl)) /\
  (forall pl, flat_ok test = true -> window_len t pt = Ok pl -> 0 < pl ->
   Z.of_nat (size test) mod pl = 0 ->
   exists errs, compute_spiking_error t test pt ct co = Ok errs /\
     length errs = Z.to_nat (Z.of_nat (size test) / pl)).
Proof.
  split.
  - intros errs H.
    destruct (compute_spiking_error_inv _ _ _ _ _ _ H) as (pl & _ & Hw & _ & _ & Hb).
    exists pl; split; [exact Hw | apply (spiking_blocks_length _ _ _ _ _ Hb)].
  - intros pl Hf Hw Hpl Hm.
    rewrite (compute_spiking_error_blocks t test pt ct co pl Hf Hw ltac:(lia) Hm).
    unfold spiking_blocks, reshape_rows.
    replace (pl <=? 0) with false by lia; rewrite Hm; simpl.
    eexists; split; [reflexivity|].
    rewrite !length_map; unfold size in *; rewrite chunks_count; lia.
Qed.

(** ** Properties of the static pipeline *)

Lemma last_cons_shift {A} (l : list A) : forall a d, last (a :: l) d = last l a.
Proof.
  induction l as [|y l IH]; intros a d; [reflexivity|].
  change (last (y :: l) d = last (y :: l) a); rewrite !IH; reflexivity.
Qed.

Lemma forward_layer_seq f : forall wbs x codes layers,
  forward f x wbs = Ok (codes, layers) <->
  layer_seq f x wbs layers /\ codes = last layers x.
Proof.
  induction wbs as [|[w b] rest IH]; intros x codes layers; simpl.
  - split.
    + intros H; inversion H; subst; split; [constructor | reflexivity].
    + intros [Hs Hc]; inversion Hs; subst; reflexivity.
  - destruct (affine x w b) as [h|e] eqn:Ha; simpl.
    + destruct (forward f (apply_fn f h) rest) as [[c ls]|e] eqn:Hf; simpl.
      * split.
        -- intros H; inversion H; subst.
           destruct (proj1 (IH _ _ _) Hf) as [Hs Hc].
           split; [econstructor; eauto | rewrite last_cons_shift; exact Hc].
        -- intros [Hs Hc]; inversion Hs as [|? ? ? ? h' ys Ha' Hs']; subst.
           rewrite Ha in Ha'; inversion Ha'; subst.
           rewrite last_cons_shift.
           pose proof (proj2 (IH (apply_fn f h') (last ys (apply_fn f h')) ys) (conj Hs' eq_refl))
             as Hf'.
           rewrite Hf in Hf'; inversion Hf'; subst; reflexivity.
      * split; [discriminate|].
        intros [Hs _]; inversion Hs as [|? ? ? ? h' ys Ha' Hs']; subst.
        rewrite Ha in Ha'; inversion Ha'; subst.
        pose proof (proj2 (IH (apply_fn f h') (last ys (apply_fn f h')) ys) (conj Hs' eq_refl))
          as Hf'.
        congruence.
    + split; [discriminate|].
      intros [Hs _]; inversion Hs; congruence.
Qed.

Lemma dot_rows x w y : dot x w = Ok y -> length y = length x.
Proof.
  unfold dot; destruct (rectangular x && rectangular w); [|discriminate].
  destruct x as [|r x']; [intros H; inversion H; reflexivity|].
  destruct (_ =? _)%nat; [|discriminate].
  intros H; injection H as <-; simpl; f_equal; apply length_map.
Qed.

Lemma add_bias_rows m b y : add_bias m b = Ok y -> length y = length m.
Proof.
  unfold add_bias; destruct (negb (rectangular m)); [discriminate|].
  destruct m as [|r m']; [intros H; inversion H; reflexivity|].
  destruct (_ =? _)%nat; [intros H; injection H as <-; simpl; f_equal; apply length_map|].
  destruct (_ =? _)%nat; [intros H; injection H as <-; simpl; f_equal; apply length_map|].
  destruct (_ =? _)%nat; [intros H; injection H as <-; simpl; f_equal; apply length_map|discriminate].
Qed.

Lemma affine_rows x w b y : affine x w b = Ok y -> length y = length x.
Proof.
  unfold affine; destruct (dot x w) as [z|e] eqn:Hd; [|discriminate]; simpl.
  intros H; rewrite (add_bias_rows _ _ _ H); exact (dot_rows _ _ _ Hd).
Qed.

Lemma forward_rows f : forall wbs x codes layers,
  forward f x wbs = Ok (codes, layers) -> length codes = length x.
Proof.
  induction wbs as [|[w b] rest IH]; intros x codes layers; simpl.
  - intros H; inversion H; reflexivity.
  - destruct (affine x w b) as [h|e] eqn:Ha; [|discriminate]; simpl.
    destruct (forward f (apply_fn f h) rest) as [[c ls]|e] eqn:Hf; [|discriminate]; simpl.
    intros H; inversion H; subst.
    rewrite (IH _ _ _ Hf); unfold apply_fn; rewrite length_map.
    exact (affine_rows _ _ _ _ Ha).
Qed.

Lemma propup_static_rows NP reg params images neuron layers codes yc :
  propup_static NP reg params images neuron = Ok (layers, codes, yc) ->
  length yc = length images.
Proof.
  unfold propup_static.
  destruct (reg (fst neuron) (snd neuron)) as [f|e]; [|discriminate]; simpl.
  destruct (forward f images _) as [[c ls]|e] eqn:Hf; [|discriminate]; simpl.
  destruct (affine c (Wc params) (bc params)) as [y|e] eqn:Ha; [|discriminate]; simpl.
  intros H; inversion H; subst.
  rewrite (affine_rows _ _ _ _ Ha); exact (forward_rows _ _ _ _ _ Hf).
Qed.

Lemma propup_static_scores NP reg params images neuron layers codes yc :
  propup_static NP reg params images neuron = Ok (layers, codes, yc) ->
  affine codes (Wc params) (bc params) = Ok yc.
Proof.
  unfold propup_static.
  destruct (reg (fst neuron) (snd neuron)) as [f|e]; [|discriminate]; simpl.
  destruct (forward f images _) as [[c ls]|e]; [|discriminate]; simpl.
  destruct (affine c (Wc params) (bc params)) as [y|e] eqn:Ha; [|discriminate]; simpl.
  intros H; inversion H; subst; exact Ha.
Qed.

Lemma Qltb_iff x y : Qltb x y = true <-> (x < y)%Q.
Proof.
  unfold Qltb; rewrite negb_true_iff; split.
  - intros H; apply Qnot_le_lt; intros Hle; apply Qle_bool_iff in Hle; congruence.
  - intros H; destruct (Qle_bool y x) eqn:E; [|reflexivity].
    apply Qle_bool_iff in E; exfalso; apply (Qlt_not_le _ _ H E).
Qed.

Lemma argmax_aux_bound r : forall i bi bv,
  (bi < i)%nat -> (argmax_aux r i bi bv < i + length r)%nat.
Proof.
  induction r as [|x r IH]; intros i bi bv Hb; simpl; [lia|].
  destruct (Qltb bv x); (eapply Nat.lt_le_trans; [apply IH; lia | lia]).
Qed.

Lemma argmax_bound r j : argmax r = Ok j -> (j < length r)%nat.
Proof.
  destruct r as [|x r]; [discriminate|]; simpl; intros H; inversion H.
  pose proof (argmax_aux_bound r 1 0 x ltac:(lia)); lia.
Qed.

(** The running best already is the strict maximum. *)
Lemma argmax_aux_keep r : forall i bi bv,
  (forall k, (k < length r)%nat -> (nth k r 0 < bv)%Q) -> argmax_aux r i bi bv = bi.
Proof.
  induction r as [|x r IH]; intros i bi bv H; simpl; [reflexivity|].
  destruct (Qltb bv x) eqn:E.
  - apply Qltb_iff in E; exfalso.
    apply (Qlt_not_le _ _ E); apply Qlt_le_weak; apply (H 0%nat); simpl; lia.
  - apply IH; intros k Hk; apply (H (S k)); simpl; lia.
Qed.

(** The strict maximum lies ahead, at offset [j - i]. *)
Lemma argmax_aux_find r : forall i bi bv j,
  (i <= j < i + length r)%nat ->
  (bv < nth (j - i) r 0)%Q ->
  (forall k, (k < length r)%nat -> k <> (j - i)%nat -> (nth k r 0 < nth (j - i) r 0)%Q) ->
  argmax_aux r i bi bv = j.
Proof.
  induction r as [|x r IH]; intros i bi bv j Hj Hbv Hmax; simpl in *; [lia|].
  destruct (Nat.eq_dec j i) as [->|Hne].
  - rewrite Nat.sub_diag in *; simpl in *.
    assert (E : Qltb bv x = true) by (apply Qltb_iff; exact Hbv).
    rewrite E; apply argmax_aux_keep.
    intros k Hk; apply (Hmax (S k)); lia.
  - replace (j - i)%nat with (S (j - S i)) in * by lia; simpl in *.
    assert (Hx : (x < nth (j - S i) r 0)%Q) by (apply (Hmax 0%nat); lia).
    assert (Hrest : forall k, (k < length r)%nat -> k <> (j - S i)%nat ->
              (nth k r 0 < nth (j - S i) r 0)%Q)
      by (intros k Hk Hk'; apply (Hmax (S k)); lia).
    destruct (Qltb bv x); apply IH; auto; lia.
Qed.

Lemma argmax_strict r j :
  (j < length r)%nat ->
  (forall k, (k < length r)%nat -> k <> j -> (nth k r 0 < nth j r 0)%Q) ->
  argmax r = Ok j.
Proof.
  destruct r as [|x r]; simpl; [lia|]; intros Hj Hmax.
  f_equal.
  destruct j as [|j].
  - apply argmax_aux_keep; intros k Hk; apply (Hmax (S k)); lia.
  - apply argmax_aux_find; [lia | |].
    + replace (S j - 1)%nat with j by lia; apply (Hmax 0%nat); lia.
    + replace (S j - 1)%nat with j by lia.
      intros k Hk Hk'; apply (Hmax (S k)); lia.
Qed.

Lemma nth_map_lt {A B} (f : A -> B) l n d d' :
  (n < length l)%nat -> nth n (map f l) d = f (nth n l d').
Proof. intros H; rewrite (nth_indep _ d (f d')) by (rewrite length_map; lia); apply map_nth. Qed.

Lemma map_result_Forall2 {A B} (f : A -> result B) : forall l l',
  map_result f l = Ok l' -> Forall2 (fun x y => f x = Ok y) l l'.
Proof.
  induction l as [|x l IH]; intros l'; simpl.
  - intros H; inversion H; constructor.
  - destruct (f x) as [y|e] eqn:Hx; [|discriminate]; simpl.
    destruct (map_result f l) as [ys|e]; [|discriminate]; simpl.
    intros H; inversion H; subst; constructor; auto.
Qed.

Lemma Forall2_map_result {A B} (f : A -> result B) l l' :
  Forall2 (fun x y => f x = Ok y) l l' -> map_result f l = Ok l'.
Proof. induction 1 as [|x y l l' Hxy _ IH]; simpl; [reflexivity|]. rewrite Hxy, IH; reflexivity. Qed.

Lemma map_result_raise {A B} (f : A -> result B) e : forall l,
  map_result f l = Raise e -> exists x, In x l /\ f x = Raise e.
Proof.
  induction l as [|x l IH]; simpl; [discriminate|].
  destruct (f x) as [y|e'] eqn:Hx; simpl.
  - destruct (map_result f l) as [ys|e'] eqn:Hl; simpl; [discriminate|].
    intros H; inversion H; subst.
    destruct (IH eq_refl) as (z & Hz & Hfz); eauto.
  - intros H; inversion H; subst; eauto.
Qed.

Lemma py_index_in_range {A} (c : list A) i d :
  (i < length c)%nat -> py_index c i = Ok (nth i c d).
Proof.
  intros H; unfold py_index; rewrite (nth_error_nth' c d H); reflexivity.
Qed.

Lemma lookup_in_range (classes : list Z) inds :
  Forall (fun i => (i < length classes)%nat) inds ->
  map_result (py_index classes) inds = Ok (map (fun i => nth i classes 0) inds).
Proof.
  intros H; apply Forall2_map_result.
  induction H as [|i inds Hi _ IH]; simpl; constructor; auto.
  apply py_index_in_range; exact Hi.
Qed.

Lemma py_index_raise {A} (c : list A) i e : py_index c i = Raise e -> e = IndexError.
Proof. unfold py_index; destruct (nth_error c i); intros H; inversion H; reflexivity. Qed.

Lemma lookup_out_of_range {A} (classes : list A) inds :
  Exists (fun i => (length classes <= i)%nat) inds ->
  map_result (py_index classes) inds = Raise IndexError.
Proof.
  induction 1 as [i inds Hi | i inds _ IH]; simpl.
  - unfold py_index at 1; rewrite (proj2 (nth_error_None classes i) Hi); reflexivity.
  - destruct (py_index classes i) as [y|e] eqn:E; simpl.
    + rewrite IH; reflexivity.
    + rewrite (py_index_raise _ _ _ E); reflexivity.
Qed.

Lemma ne_broadcast_same_length a b :
  length a = length b ->
  ne_broadcast a b = Ok (map (fun xy => negb (fst xy =? snd xy)) (combine a b)).
Proof. intros H; unfold ne_broadcast; rewrite H, Nat.eqb_refl; reflexivity. Qed.

Lemma ne_broadcast_no_index a b : ne_broadcast a b <> Raise IndexError.
Proof.
  unfold ne_broadcast.
  destruct (_ =? _)%nat; [discriminate|].
  destruct (_ =? _)%nat; [discriminate|].
  destruct (_ =? _)%nat; discriminate.
Qed.

Lemma vadd_length u : forall v, length (vadd u v) = Nat.min (length u) (length v).
Proof. induction u as [|x u IH]; intros [|y v]; simpl; auto. Qed.

(** With a bias of two or more entries the broadcast sum has one column per
    bias entry. *)
Lemma add_bias_cols m b y :
  add_bias m b = Ok y -> (2 <= length b)%nat -> Forall (fun r => length r = length b) y.
Proof.
  unfold add_bias; destruct (rectangular m) eqn:Hrect; simpl; [|discriminate].
  destruct m as [|r0 m'] eqn:Em; [intros H; inversion H; constructor|].
  rewrite <- Em; intros H Hb.
  destruct (ncols m =? length b)%nat eqn:Hc.
  - injection H as <-; apply Nat.eqb_eq in Hc.
    unfold rectangular in Hrect; rewrite forallb_forall in Hrect.
    apply Forall_forall; intros r' Hr'; apply in_map_iff in Hr' as (r & <- & Hr).
    rewrite Em in Hr, Hc.
    rewrite vadd_length; specialize (Hrect r Hr); apply Nat.eqb_eq in Hrect; lia.
  - destruct (length b =? 1)%nat eqn:H1; [apply Nat.eqb_eq in H1; lia|].
    destruct (ncols m =? 1)%nat; [|discriminate].
    injection H as <-.
    apply Forall_forall; intros r' Hr'; apply in_map_iff in Hr' as (r & <- & _).
    apply length_map.
Qed.

Lemma affine_cols x w b y :
  affine x w b = Ok y -> (2 <= length b)%nat -> Forall (fun r => length r = length b) y.
Proof.
  unfold affine; destruct (dot x w) as [z|e]; [|discriminate]; simpl.
  apply add_bias_cols.
Qed.

Lemma argmax_rows_bound yc inds k :
  Forall (fun r => length r = k) yc -> argmax_rows yc = Ok inds ->
  Forall (fun i => (i < k)%nat) inds.
Proof.
  intros Hc H; apply map_result_Forall2 in H.
  induction H as [|r i yc' inds' Hri _ IH]; constructor.
  - inversion Hc; subst; apply argmax_bound; exact Hri.
  - inversion Hc; auto.
Qed.

Lemma argmax_no_index r : argmax r <> Raise IndexError.
Proof. destruct r; discriminate. Qed.

(** Rows with a strict maximum at the position of their label's class. *)
Lemma separated_lookup (classes : list Z) rows labs :
  Forall2 (fun row lab => exists j,
      (j < length classes)%nat /\ nth j classes 0 = lab /\
      (j < length row)%nat /\
      forall k, (k < length row)%nat -> k <> j -> (nth k row 0 < nth j row 0)%Q)
    rows labs ->
  exists inds, argmax_rows rows = Ok inds /\
    map_result (py_index classes) inds = Ok labs.
Proof.
  unfold argmax_rows.
  induction 1 as [|row lab rows' labs' Hrow _ IH].
  - exists []; split; reflexivity.
  - destruct Hrow as (j & Hj & Hjl & Hjr & Hmax).
    destruct IH as (inds & Hi & Hm).
    exists (j :: inds); simpl.
    rewrite (argmax_strict row j Hjr Hmax); simpl; rewrite Hi; split; [reflexivity|].
    rewrite (py_index_in_range _ _ 0 Hj), Hjl; simpl; rewrite Hm; reflexivity.
Qed.

(** ** Claims about the static pipeline *)

(** C7: once the neuron selector resolves to [f], the forward pass succeeds
    with [(layers, codes, yc)] exactly when [layers] is the sequence
    [x_{i+1} = f(x_i . W_i + b_i)] started at the images (over the
    (weight, bias) pairs), [codes] is its last element (the images when there
    is no layer), and [yc = codes . Wc + bc]. *)
Theorem propup_static_layers NP reg params images neuron f layers codes yc :
  reg (fst neuron) (snd neuron) = Ok f ->
  (propup_static NP reg params images neuron = Ok (layers, codes, yc) <->
   layer_seq f images (combine (weights params) (biases params)) layers /\
   codes = last layers images /\
   affine codes (Wc params) (bc params) = Ok yc).
Proof.
  intros Hreg; unfold propup_static; rewrite Hreg; simpl.
  destruct (forward f images (combine (weights params) (biases params)))
    as [[c ls]|e] eqn:Hf; simpl.
  - destruct (proj1 (forward_layer_seq _ _ _ _ _) Hf) as [Hs Hc].
    destruct (affine c (Wc params) (bc params)) as [y|e] eqn:Ha; simpl.
    + split.
      * intros H; inversion H; subst; auto.
      * intros (Hs' & Hc' & Ha').
        pose proof (proj2 (forward_layer_seq _ _ _ _ _) (conj Hs' Hc')) as Hf'.
        rewrite Hf in Hf'; inversion Hf'; subst; congruence.
    + split; [discriminate|].
      intros (Hs' & Hc' & Ha').
      pose proof (proj2 (forward_layer_seq _ _ _ _ _) (conj Hs' Hc')) as Hf'.
      rewrite Hf in Hf'; inversion Hf'; subst; congruence.
  - split; [discriminate|].
    intros (Hs' & Hc' & _).
    pose proof (proj2 (forward_layer_seq _ _ _ _ _) (conj Hs' Hc')) as Hf'.
    congruence.
Qed.

(** C2, counterexample: a classifier with two outputs and labels with a
    single distinct value; the arg-max index 1 has no label, and
    [classes[inds]] raises IndexError instead of returning a vector.  With
    two labels for a single image, [labels != classes[inds]] broadcasts the
    one prediction over both labels, and the vector has two entries for one
    image. *)
Lemma static_error_index_out_of_range :
  compute_static_error unit relu_registry ex_two_class_params [[1]%Q] [7]
    ("softlif"%string, tt) = Raise IndexError /\
  compute_static_error unit relu_registry ex_two_class_params [[1]%Q] [7; 8]
    ("softlif"%string, tt) = Ok [true; false].
Proof. vm_compute. split; reflexivity. Qed.

(** C2 (amended): when the forward pass succeeds, every arg-max index is
    below the number of distinct labels, and there is one label per image,
    [compute_static_error] returns a vector with one entry per image whose
    entry [n] is True exactly when the label that the arg-max index maps to
    in the sorted distinct labels differs from label [n]; when some arg-max
    index has no distinct label, [classes[inds]] raises IndexError. *)
Theorem compute_static_error_entries NP reg params images labels neuron
    layers codes yc inds :
  propup_static NP reg params images neuron = Ok (layers, codes, yc) ->
  argmax_rows yc = Ok inds ->
  (Forall (fun i => (i < length (unique labels))%nat) inds ->
   length labels = length images ->
   exists errs,
     compute_static_error NP reg params images labels neuron = Ok errs /\
     length errs = length images /\
     forall n, (n < length images)%nat ->
       nth n errs false =
       negb (nth n labels 0 =? nth (nth n inds 0%nat) (unique labels) 0)) /\
  (Exists (fun i => (length (unique labels) <= i)%nat) inds ->
   compute_static_error NP reg params images labels neuron = Raise IndexError).
Proof.
  intros Hp Ha; split.
  - intros Hb Hl.
    pose proof (propup_static_rows _ _ _ _ _ _ _ _ Hp) as Hrows.
    assert (Hi : length inds = length images).
    { rewrite <- Hrows; symmetry; apply (Forall2_length (map_result_Forall2 _ _ _ Ha)). }
    unfold compute_static_error; rewrite Hp; simpl; rewrite Ha; simpl.
    rewrite (lookup_in_range _ _ Hb); simpl.
    rewrite ne_broadcast_same_length by (rewrite length_map; lia).
    eexists; split; [reflexivity|]; split.
    + rewrite length_map, length_combine, length_map; lia.
    + intros n Hn.
      rewrite (nth_map_lt _ _ _ _ (0, 0)) by (rewrite length_combine, length_map; lia).
      rewrite combine_nth by (rewrite length_map; lia); simpl.
      rewrite (nth_map_lt _ _ _ _ 0%nat) by lia; reflexivity.
  - intros Hb.
    unfold compute_static_error; rewrite Hp; simpl; rewrite Ha; simpl.
    rewrite (lookup_out_of_range _ _ Hb); reflexivity.
Qed.

(** C8: when for every example the score at the index that maps to its true
    label is strictly above every other score, the error vector is all
    False: the static error is 0%. *)
Theorem static_error_zero_when_separated NP reg params images labels neuron
    layers codes yc :
  propup_static NP reg params images neuron = Ok (layers, codes, yc) ->
  Forall2 (fun row lab => exists j,
      (j < length (unique labels))%nat /\ nth j (unique labels) 0 = lab /\
      (j < length row)%nat /\
      forall k, (k < length row)%nat -> k <> j -> (nth k row 0 < nth j row 0)%Q)
    yc labels ->
  compute_static_error NP reg params images labels neuron =
    Ok (repeat false (length images)).
Proof.
  intros Hp Hsep.
  pose proof (propup_static_rows _ _ _ _ _ _ _ _ Hp) as Hrows.
  assert (Hl : length labels = length images)
    by (rewrite <- Hrows; symmetry; apply (Forall2_length Hsep)).
  destruct (separated_lookup _ _ _ Hsep) as (inds & Hi & Hm).
  unfold compute_static_error; rewrite Hp; simpl; rewrite Hi; simpl; rewrite Hm; simpl.
  rewrite ne_broadcast_same_length by reflexivity.
  rewrite <- Hl; f_equal.
  clear; induction labels as [|x l IH]; simpl; [reflexivity|].
  rewrite Z.eqb_refl, IH; reflexivity.
Qed.

(** C10, counterexample: one distinct label and a one-entry bias pass the
    assertion of line 179, yet a classifier matrix with two columns
    broadcasts the bias to two scores and the lookup goes out of bounds. *)
Lemma static_lookup_assert_insufficient :
  length (unique [7]) = length (bc ex_broadcast_params) /\
  compute_static_error unit relu_registry ex_broadcast_params [[1]%Q] [7]
    ("softlif"%string, tt) = Raise IndexError.
Proof. vm_compute. split; reflexivity. Qed.

(** C10 (amended): under the assertion of line 179 (as many distinct labels
    as bias entries) and with at least two distinct labels, every score row
    has one entry per label, so [classes[inds]] never goes out of bounds:
    [compute_static_error] does not raise IndexError. *)
Theorem static_lookup_in_range NP reg params images labels neuron layers codes yc :
  propup_static NP reg params images neuron = Ok (layers, codes, yc) ->
  length (unique labels) = length (bc params) ->
  (2 <= length (bc params))%nat ->
  compute_static_error NP reg params images labels neuron <> Raise IndexError.
Proof.
  intros Hp Hassert H2.
  pose proof (affine_cols _ _ _ _ (propup_static_scores _ _ _ _ _ _ _ _ Hp) H2) as Hc.
  unfold compute_static_error; rewrite Hp; simpl.
  destruct (argmax_rows yc) as [inds|e] eqn:Ha; simpl.
  - pose proof (argmax_rows_bound _ _ _ Hc Ha) as Hb.
    rewrite <- Hassert in Hb.
    rewrite (lookup_in_range _ _ Hb); simpl.
    apply ne_broadcast_no_index.
  - intros E; inversion E; subst.
    destruct (map_result_raise _ _ _ Ha) as (r & _ & Hr).
    exact (argmax_no_index r Hr).
Qed.

(** ** Claims about the entry point *)

Lemma getitem_has_key {V} (d : archive V) k :
  (has_key V d k = false -> getitem V d k = Raise KeyError) /\
  (has_key V d k = true -> exists v, getitem V d k = Ok v).
Proof.
  unfold has_key, getitem; induction d as [|[k' v'] d IH]; simpl.
  - split; [reflexivity | discriminate].
  - destruct (String.eqb k' k); simpl; [split; [discriminate | eauto] | exact IH].
Qed.

(** C6, counterexample: an archive with [t], [classifier] and [test] but no
    [pres_time] is dispatched to the spiking pipeline and fails with
    KeyError, not with the unrecognized-format ValueError. *)
Lemma entry_point_missing_pres_time :
  main nat (fun _ => mk_run [] (Ok tt))
    (fun _ _ _ => mk_run [Stdout "Spiking network error"] (Ok tt))
    (fun _ _ _ _ _ _ => mk_run [Figure] (Ok tt))
    true [("t", 0%nat); ("classifier", 1%nat); ("test", 2%nat)]%string
  = failed KeyError.
Proof. vm_compute. reflexivity. Qed.

(** C6 (amended): a missing path raises IOError; an archive with neither all
    of [weights], [biases], [Wc], [bc] nor all of [t], [classifier], [test]
    raises the unrecognized-format ValueError; both before any output.  An
    archive with [t], [classifier] and [test] goes to the spiking pipeline:
    without [pres_time] it raises KeyError before any output, and without
    [images] or [labels] it raises KeyError after the spiking error has been
    computed and printed. *)
Theorem entry_point_dispatch V sb seb vsb d :
  main V sb seb vsb false d = failed IOError /\
  (forallb (has_key V d) static_keys = false ->
   forallb (has_key V d) spiking_keys = false ->
   main V sb seb vsb true d = failed ValueError) /\
  (forallb (has_key V d) static_keys = false ->
   forallb (has_key V d) spiking_keys = true ->
   has_key V d "pres_time" = false ->
   main V sb seb vsb true d = failed KeyError) /\
  (forallb (has_key V d) static_keys = false ->
   forallb (has_key V d) spiking_keys = true ->
   has_key V d "pres_time" = true ->
   has_key V d "images" = false \/ has_key V d "labels" = false ->
   exists t test pt,
     getitem V d "t" = Ok t /\ getitem V d "test" = Ok test /\
     getitem V d "pres_time" = Ok pt /\
     main V sb seb vsb true d =
       match outcome (seb t test pt) with
       | Ok _ => mk_run (events (seb t test pt)) (Raise KeyError)
       | Raise _ => seb t test pt
       end)%string.
Proof.
  split; [reflexivity|].
  split; [intros Hs Hp; unfold main; simpl negb; rewrite Hs, Hp; reflexivity|].
  assert (Hkeys : forallb (has_key V d) spiking_keys = true ->
            (exists t, getitem V d "t"%string = Ok t) /\
            (exists test, getitem V d "test"%string = Ok test)).
  { unfold spiking_keys; simpl; intros H.
    apply andb_true_iff in H as [Ht H]; apply andb_true_iff in H as [_ H];
      apply andb_true_iff in H as [Hte _].
    split; [apply (getitem_has_key d "t"), Ht | apply (getitem_has_key d "test"), Hte]. }
  split.
  - intros Hs Hp Hpt.
    destruct (Hkeys Hp) as [[t Ht] [test Hte]].
    unfold main; simpl negb; rewrite Hs, Hp, Ht, Hte; simpl.
    rewrite (proj1 (getitem_has_key d "pres_time") Hpt); reflexivity.
  - intros Hs Hp Hpt Him.
    destruct (Hkeys Hp) as [[t Ht] [test Hte]].
    destruct (proj2 (getitem_has_key d "pres_time") Hpt) as [pt Hpt'].
    exists t, test, pt; repeat split; auto.
    unfold main; simpl negb; rewrite Hs, Hp, Ht, Hte, Hpt'; simpl.
    destruct (outcome (seb t test pt)); [|reflexivity].
    destruct Him as [Hi | Hl].
    + rewrite (proj1 (getitem_has_key d "images") Hi); reflexivity.
    + destruct (getitem V d "images") as [im|e] eqn:Ei; simpl.
      * rewrite (proj1 (getitem_has_key d "labels") Hl); reflexivity.
      * unfold getitem in Ei; destruct (find _ d); inversion Ei; reflexivity.
Qed.

(** ** Witnesses *)

Lemma spiking_error_assertions_witness :
  compute_spiking_error ex_t ex_ones (3 # 2) (5 # 100) (1 # 2) = Raise AssertionError.
Proof.
  apply (proj2 (proj2 (proj2 (spiking_error_assertions ex_t ex_ones (3 # 2) (5 # 100) (1 # 2))
    150 eq_refl eq_refl) ltac:(discriminate))).
  vm_compute; discriminate.
Defined.

Lemma spiking_error_ones_zeros_witness :
  compute_spiking_error ex_t ex_ones 1 (5 # 100) (1 # 2) =
    Ok (repeat false (Z.to_nat (Z.of_nat (size ex_ones) / 100))).
Proof.
  apply (proj1 (spiking_error_ones_zeros ex_t ex_ones 1 (5 # 100) 100
    eq_refl eq_refl ltac:(lia) eq_refl ltac:(unfold Qle; simpl; lia))).
  apply Forall_forall; intros x Hx; apply repeat_spec in Hx; subst; reflexivity.
Defined.

Lemma pad_branch_unreachable_witness :
  spiking_prefix ex_t ex_late_signal 1 (5 # 100) = Ok (mk_spiking_state ex_late_signal 100 5) /\
  pad_guard (mk_spiking_state ex_late_signal 100 5) = Ok false.
Proof.
  split; [vm_compute; reflexivity|].
  refine (proj2 (pad_branch_unreachable ex_t ex_late_signal 1 (5 # 100) _ _)).
  vm_compute; reflexivity.
Defined.

Lemma spiking_error_one_per_window_witness :
  exists errs, compute_spiking_error ex_t ex_ones 1 (5 # 100) (1 # 2) = Ok errs /\
    length errs = Z.to_nat (Z.of_nat (size ex_ones) / 100).
Proof.
  apply (proj2 (spiking_error_one_per_window ex_t ex_ones 1 (5 # 100) (1 # 2)) 100);
    [reflexivity | reflexivity | lia | reflexivity].
Defined.

Lemma propup_static_layers_witness :
  exists layers codes yc,
    propup_static unit relu_registry ex_hidden_params ex_images ex_neuron = Ok (layers, codes, yc) /\
    layer_seq relu ex_images (combine (weights ex_hidden_params) (biases ex_hidden_params)) layers /\
    codes = last layers ex_images.
Proof.
  do 3 eexists.
  assert (H : propup_static unit relu_registry ex_hidden_params ex_images ex_neuron =
              Ok (_, _, _)) by (vm_compute; reflexivity).
  split; [exact H|].
  destruct (proj1 (propup_static_layers unit relu_registry ex_hidden_params ex_images ex_neuron
                     relu _ _ _ eq_refl) H) as (Hs & Hc & _).
  split; [exact Hs | exact Hc].
Defined.

Lemma compute_static_error_entries_witness :
  (exists errs,
     compute_static_error unit relu_registry ex_hidden_params ex_images ex_labels ex_neuron = Ok errs /\
     length errs = length ex_images /\
     forall n, (n < length ex_images)%nat ->
       nth n errs false =
       negb (nth n ex_labels 0 =? nth (nth n [0; 1]%nat 0%nat) (unique ex_labels) 0)) /\
  compute_static_error unit relu_registry ex_two_class_params [[1]%Q] [7] ("softlif"%string, tt) =
    Raise IndexError.
Proof.
  split.
  - assert (H : exists l c y,
               propup_static unit relu_registry ex_hidden_params ex_images ex_neuron = Ok (l, c, y) /\
               argmax_rows y = Ok [0; 1]%nat)
      by (do 3 eexists; split; vm_compute; reflexivity).
    destruct H as (l & c & y & Hp & Ha).
    apply (proj1 (compute_static_error_entries unit relu_registry ex_hidden_params ex_images
                    ex_labels ex_neuron l c y [0; 1]%nat Hp Ha)).
    + vm_compute; repeat (apply Forall_cons; [lia|]); apply Forall_nil.
    + reflexivity.
  - apply (compute_static_error_entries unit relu_registry ex_two_class_params [[1]%Q] [7]
             ("softlif"%string, tt) [] [[1]%Q] [[0; 1]%Q] [1%nat]).
    + vm_compute; reflexivity.
    + vm_compute; reflexivity.
    + apply Exists_cons_hd; simpl; lia.
Defined.

Lemma static_error_zero_when_separated_witness :
  compute_static_error unit relu_registry ex_onehot_params ex_images ex_labels ex_neuron =
    Ok (repeat false (length ex_images)).
Proof.
  eapply static_error_zero_when_separated; [vm_compute; reflexivity|].
  vm_compute.
  constructor; [exists 0%nat|constructor; [exists 1%nat|constructor]];
    (split; [lia|]); (split; [reflexivity|]); (split; [simpl; lia|]);
    intros k Hk Hk'; destruct k as [|[|k]]; simpl in *; try lia; reflexivity.
Defined.

Lemma static_lookup_in_range_witness :
  compute_static_error unit relu_registry ex_onehot_params ex_images ex_labels ex_neuron
    <> Raise IndexError.
Proof.
  eapply static_lookup_in_range; [vm_compute; reflexivity | reflexivity | simpl; lia].
Defined.

Lemma entry_point_dispatch_witness :
  exists t test pt,
    getitem nat [("t", 0%nat); ("classifier", 1%nat); ("test", 2%nat); ("pres_time", 3%nat)]%string
      "t"%string = Ok t /\
    getitem nat [("t", 0%nat); ("classifier", 1%nat); ("test", 2%nat); ("pres_time", 3%nat)]%string
      "test"%string = Ok test /\
    getitem nat [("t", 0%nat); ("classifier", 1%nat); ("test", 2%nat); ("pres_time", 3%nat)]%string
      "pres_time"%string = Ok pt /\
    main nat (fun _ => mk_run [] (Ok tt))
      (fun _ _ _ => mk_run [Stdout "Spiking network error"] (Ok tt))
      (fun _ _ _ _ _ _ => mk_run [Figure] (Ok tt))
      true [("t", 0%nat); ("classifier", 1%nat); ("test", 2%nat); ("pres_time", 3%nat)]%string =
    mk_run [Stdout "Spiking network error"] (Raise KeyError).
Proof.
  destruct (proj2 (proj2 (proj2 (entry_point_dispatch nat (fun _ => mk_run [] (Ok tt))
      (fun _ _ _ => mk_run [Stdout "Spiking network error"] (Ok tt))
      (fun _ _ _ _ _ _ => mk_run [Figure] (Ok tt))
      [("t", 0%nat); ("classifier", 1%nat); ("test", 2%nat); ("pres_time", 3%nat)]%string)))
    eq_refl eq_refl eq_refl (or_introl eq_refl)) as (t & test & pt & H1 & H2 & H3 & H4).
  exists t, test, pt; split; [exact H1|]; split; [exact H2|]; split; [exact H3|].
  rewrite H4; reflexivity.
Defined.

(** ** Properties of the windowing in compute_spiking_error *)

Lemma chunks_aux_concat {A} k : (0 < k)%nat -> forall fuel (l : list A),
  (length l <= fuel)%nat -> concat (chunks_aux fuel k l) = l.
Proof.
  intros Hk; induction fuel as [|fuel IH]; intros l Hl.
  - destruct l; [reflexivity | simpl in Hl; lia].
  - destruct l as [|x l']; [reflexivity|].
    simpl chunks_aux; cbn [concat].
    rewrite IH; [apply firstn_skipn|].
    rewrite length_skipn. cbn [length] in *. idtac. lia.
Qed.

Lemma chunks_aux_widths {A} (k m : nat) : forall fuel (l : list A),
  length l = (m * k)%nat -> Forall (fun w => length w = k) (chunks_aux fuel k l).
Proof.
  induction m as [|m IH]; intros fuel l Hl.
  - destruct l; [destruct fuel; constructor | simpl in Hl; lia].
  - destruct fuel as [|fuel]; [constructor|].
    destruct l as [|x l']; [constructor|].
    simpl chunks_aux; constructor.
    + rewrite length_firstn; cbn [length] in *; lia.
    + apply IH; rewrite length_skipn; cbn [length] in *; lia.
Qed.

Lemma float_index_opp ct : float_index (- ct) = - float_index ct.
Proof. destruct ct as [n d]; unfold float_index; simpl; apply Z.quot_opp_l; lia. Qed.

Lemma float_index_nonneg ct : (0 <= ct)%Q -> 0 <= float_index ct.
Proof.
  destruct ct as [n d]; unfold Qle, float_index; simpl; intros H.
  apply Z.quot_pos; lia.
Qed.

(** The slice [b[-check_time:]] for [check_time >= 0]: the whole block when
    [int(check_time)] is 0, otherwise its last [int(check_time)] samples. *)
Lemma py_slice_from_tail {A} ct (w : list A) :
  (0 <= ct)%Q ->
  py_slice_from (float_index (- ct)) w =
  skipn (length w - (if float_index ct =? 0 then length w
                     else Nat.min (Z.to_nat (float_index ct)) (length w))) w.
Proof.
  intros Hct; pose proof (float_index_nonneg ct Hct) as Hq.
  rewrite float_index_opp; unfold py_slice_from.
  destruct (float_index ct =? 0) eqn:E0.
  - apply Z.eqb_eq in E0; rewrite E0; simpl.
    replace (length w - length w)%nat with 0%nat by lia.
    replace (Z.to_nat (Z.min 0 (Z.of_nat (length w)))) with 0%nat by lia; reflexivity.
  - apply Z.eqb_neq in E0.
    replace (- float_index ct <? 0) with true by lia.
    f_equal; lia.
Qed.

(** X1: for a non-negative [check_time], the function cuts the signal into
    consecutive windows of [pres_len = round(pres_time/dt)] samples that
    together are the whole signal, and marks each window by the mean of its
    samples from the end: all of them when [int(check_time)] is 0 (any
    [check_time] below 1 s), otherwise the last [int(check_time)] of them. *)
Theorem spiking_error_windows t test pt ct co errs :
  (0 <= ct)%Q ->
  compute_spiking_error t test pt ct co = Ok errs ->
  exists pl windows,
    window_len t pt = Ok pl /\ 0 < pl /\
    concat windows = flat test /\
    Forall (fun w => length w = Z.to_nat pl) windows /\
    errs = map (fun w => nan_lt (mean (skipn (Z.to_nat pl -
              (if float_index ct =? 0 then Z.to_nat pl
               else Nat.min (Z.to_nat (float_index ct)) (Z.to_nat pl))) w)) co) windows.
Proof.
  intros Hct H.
  destruct (compute_spiking_error_inv _ _ _ _ _ _ H) as (pl & _ & Hw & _ & _ & Hb).
  destruct (spiking_blocks_length _ _ _ _ _ Hb) as (Hpl & Hm & _).
  unfold spiking_blocks, reshape_rows in Hb.
  replace (pl <=? 0) with false in Hb by lia; rewrite Hm in Hb; simpl in Hb.
  injection Hb as <-.
  assert (Hwid : Forall (fun w => length w = Z.to_nat pl) (chunks (Z.to_nat pl) (flat test))).
  { unfold chunks; apply (chunks_aux_widths _ (Z.to_nat (Z.of_nat (size test) / pl))).
    unfold size in *.
    assert (Hd : Z.of_nat (length (flat test)) = pl * (Z.of_nat (length (flat test)) / pl)).
    { rewrite (Z.div_mod (Z.of_nat (length (flat test))) pl) at 1 by lia; lia. }
    assert (0 <= Z.of_nat (length (flat test)) / pl) by (apply Z.div_pos; lia).
    apply Nat2Z.inj; rewrite Nat2Z.inj_mul, !Z2Nat.id by lia; lia. }
  exists pl, (chunks (Z.to_nat pl) (flat test)).
  split; [exact Hw|]; split; [exact Hpl|]; split.
  { unfold chunks; apply chunks_aux_concat; lia. }
  split; [exact Hwid|].
  rewrite map_map; apply map_ext_in; intros w Hin.
  rewrite Forall_forall in Hwid; rewrite py_slice_from_tail by exact Hct.
  rewrite (Hwid w Hin); reflexivity.
Qed.

(** ** Properties of view_spiking *)

Lemma vbind_ok {A B} (m : vresult A) (k : A -> vresult B) b :
  vbind m k = VOk b -> exists a, m = VOk a /\ k a = VOk b.
Proof. destruct m; simpl; [eauto | discriminate]. Qed.

Lemma lift_ok {A} (r : result A) a : lift r = VOk a -> r = Ok a.
Proof. destruct r; simpl; congruence. Qed.

Lemma py_last_ok {A} (l : list A) x : py_last l = Ok x -> exists l0, l = l0 ++ [x].
Proof.
  unfold py_last; destruct (rev l) as [|y r] eqn:E; [discriminate|].
  intros H; injection H as <-; exists (rev r).
  rewrite <- (rev_involutive l), E; reflexivity.
Qed.

Lemma py_last_last {A} (l : list A) x d : py_last l = Ok x -> x = last l d.
Proof. intros H; destruct (py_last_ok l x H) as (l0 & ->); rewrite last_last; reflexivity. Qed.

Lemma py_last_nonempty {A} (l : list A) : l <> [] -> exists x, py_last l = Ok x.
Proof.
  intros Hl; unfold py_last; destruct (rev l) as [|y r] eqn:E; [|eauto].
  apply (f_equal (@rev A)) in E; rewrite rev_involutive in E; simpl in E; congruence.
Qed.

Lemma nonzero_from_self {A} (g : A -> bool) : forall xs (pre : list A),
  map_result (py_index (pre ++ xs)) (nonzero_from (length pre) (map g xs)) = Ok (filter g xs).
Proof.
  induction xs as [|x xs IH]; intros pre; simpl; [reflexivity|].
  assert (Hx : py_index (pre ++ x :: xs) (length pre) = Ok x).
  { unfold py_index; rewrite nth_error_app2, Nat.sub_diag by lia; reflexivity. }
  assert (Hr : map_result (py_index (pre ++ x :: xs)) (nonzero_from (S (length pre)) (map g xs))
               = Ok (filter g xs)).
  { specialize (IH (pre ++ [x])); rewrite <- app_assoc, length_app, Nat.add_1_r in IH; exact IH. }
  destruct (g x); simpl; [rewrite Hx; simpl; rewrite Hr; reflexivity | exact Hr].
Qed.

Lemma bool_mask_self {A} (g : A -> bool) xs : bool_mask (map g xs) xs = Ok (filter g xs).
Proof. exact (nonzero_from_self g xs []). Qed.

Lemma nonzero_from_length : forall m i, length (nonzero_from i m) = length (filter (fun b => b) m).
Proof. induction m as [|b m IH]; intros i; simpl; [reflexivity|]; destruct b; simpl; auto. Qed.

Lemma nonzero_from_In : forall m i j, nth_error m j = Some true -> In (i + j)%nat (nonzero_from i m).
Proof.
  induction m as [|b m IH]; intros i [|j] H; simpl in *; try discriminate.
  - injection H as ->; left; lia.
  - replace (i + S j)%nat with (S i + j)%nat by lia.
    destruct b; [right|]; apply IH; exact H.
Qed.

Lemma bool_mask_length {A} (m : list bool) (ys ys' : list A) :
  bool_mask m ys = Ok ys' -> length ys' = length (filter (fun b => b) m).
Proof.
  intros H; rewrite <- (nonzero_from_length m 0).
  symmetry; exact (Forall2_length (map_result_Forall2 _ _ _ H)).
Qed.

Lemma bool_mask_incl {A} (m : list bool) (ys ys' : list A) y :
  bool_mask m ys = Ok ys' -> In y ys' -> In y ys.
Proof.
  intros H; pose proof (map_result_Forall2 _ _ _ H) as H2; clear H.
  induction H2 as [|i y' is ys'' Hi _ IH]; [intros []|].
  intros [<- | Hin]; [|auto].
  unfold py_index in Hi; destruct (nth_error ys i) eqn:E; [|discriminate].
  injection Hi as <-; exact (nth_error_In _ _ E).
Qed.

Lemma bool_mask_raise {A} (m : list bool) (ys : list A) e :
  bool_mask m ys = Raise e -> e = IndexError.
Proof.
  intros H; destruct (map_result_raise _ _ _ H) as (i & _ & Hi); exact (py_index_raise _ _ _ Hi).
Qed.

(** A kept position past the end of the array. *)
Lemma bool_mask_out {A} (m : list bool) (ys : list A) :
  (exists j, nth_error m j = Some true /\ (length ys <= j)%nat) ->
  bool_mask m ys = Raise IndexError.
Proof.
  intros (j & Hj & Hl); apply lookup_out_of_range, Exists_exists.
  exists j; split; [exact (nonzero_from_In m 0 j Hj) | exact Hl].
Qed.

Lemma filter_map_length {A} (g : A -> bool) xs :
  length (filter (fun b => b) (map g xs)) = length (filter g xs).
Proof. induction xs as [|x xs IH]; simpl; [reflexivity|]; destruct (g x); simpl; auto. Qed.

Lemma Forall2_nth_error_r {A B} (R : A -> B -> Prop) l l' m y :
  Forall2 R l l' -> nth_error l' m = Some y -> exists x, nth_error l m = Some x /\ R x y.
Proof.
  intros H; revert m; induction H as [|x y' l l' Hxy _ IH]; intros [|m] Hm; simpl in *;
    try discriminate; [injection Hm as <-; eauto | eauto].
Qed.

Lemma map_result_mask_out {A} (m : list bool) (ls : list (list A)) :
  Exists (fun l => exists j, nth_error m j = Some true /\ (length l <= j)%nat) ls ->
  map_result (bool_mask m) ls = Raise IndexError.
Proof.
  induction 1 as [l ls Hl | l ls _ IH]; simpl.
  - rewrite (bool_mask_out m l Hl); reflexivity.
  - destruct (bool_mask m l) as [l'|e] eqn:E; simpl.
    + rewrite IH; reflexivity.
    + rewrite (bool_mask_raise _ _ _ E); reflexivity.
Qed.

Lemma raster_panels_index t bars : forall layers i k,
  fst (raster_panels i t bars k layers) = (i + length layers)%nat /\
  map fst (snd (raster_panels i t bars k layers)) = seq (S i) (length layers).
Proof.
  induction layers as [|l ls IH]; intros i k; simpl; [split; [lia | reflexivity]|].
  destruct (raster_panels (S i) t bars (S k) ls) as [i2 ps] eqn:E.
  destruct (IH (S i) (S k)) as [H1 H2]; rewrite E in H1, H2; simpl in *.
  split; [lia | rewrite H2; reflexivity].
Qed.

Lemma raster_panels_content t bars : forall layers i k j p,
  In (j, p) (snd (raster_panels i t bars k layers)) ->
  exists m l, nth_error layers m = Some l /\
    p = Raster t (if (max_neurons <? ncols l)%nat then map (firstn max_neurons) l else l)
          bars (S (k + m)) (ncols l).
Proof.
  induction layers as [|l ls IH]; intros i k j p; simpl; [contradiction|].
  destruct (raster_panels (S i) t bars (S k) ls) as [i2 ps] eqn:E; simpl.
  intros [Hp | Hp].
  - injection Hp as _ <-; exists 0%nat, l; split; [reflexivity|].
    rewrite Nat.add_0_r; reflexivity.
  - specialize (IH (S i) (S k) j p); rewrite E in IH.
    destruct (IH Hp) as (m & l' & Hm & ->).
    exists (S m), l'; split; [exact Hm|]; rewrite Nat.add_succ_r; reflexivity.
Qed.

(** A figure that is shown, traced back through the steps of view_spiking. *)
Lemma view_spiking_figure_inv t images labels classifier test pt mp layers sf f :
  figure (view_spiking t images labels classifier test pt mp layers sf) = VOk f ->
  exists dt t_last n_pres t' classifier' test' layers' img bars,
    let tmask := map (fun x => Qle_bool x (inject_Z n_pres * pt)) t in
    sample_step t = Ok dt /\ py_last t = Ok t_last /\
    presentations t_last pt mp = VOk n_pres /\
    bool_mask tmask t = Ok t' /\ bool_mask tmask classifier = Ok classifier' /\
    bool_mask tmask test = Ok test' /\ map_result (bool_mask tmask) layers = Ok layers' /\
    allimage (py_slice_to n_pres images) = Ok img /\ plot_bars t' pt = Ok bars /\
    fig_panels f = (1%nat, ImageStrip img) :: snd (raster_panels 1 t' bars 0 layers') ++
      [(S (fst (raster_panels 1 t' bars 0 layers')), Trace t' classifier' bars "class" None);
       (S (S (fst (raster_panels 1 t' bars 0 layers'))),
         Trace t' test' bars "correct" (Some ((-1 # 10)%Q, (11 # 10)%Q)))] /\
    fig_saved f = sf.
Proof.
  unfold view_spiking.
  destruct (sample_step t) as [dt|e] eqn:Hdt; simpl; [|discriminate].
  intros H.
  apply vbind_ok in H as (t_last & Hl & H); apply lift_ok in Hl.
  apply vbind_ok in H as (n_pres & Hn & H).
  apply vbind_ok in H as (t' & Ht & H); apply lift_ok in Ht.
  apply vbind_ok in H as (c' & Hc & H); apply lift_ok in Hc.
  apply vbind_ok in H as (s' & Hs & H); apply lift_ok in Hs.
  apply vbind_ok in H as (ls' & Hls & H); apply lift_ok in Hls.
  apply vbind_ok in H as (img & Hi & H); apply lift_ok in Hi.
  apply vbind_ok in H as (bars & Hb & H); apply lift_ok in Hb.
  simpl in H.
  destruct (raster_panels 1 t' bars 0 ls') as [i1 rasters] eqn:Hr.
  injection H as <-.
  exists dt, t_last, n_pres, t', c', s', ls', img, bars; simpl.
  rewrite Hr; simpl; repeat split; assumption.
Qed.

Lemma presentations_ok t_last pt mp n :
  presentations t_last pt mp = VOk n ->
  ~ (pt == 0)%Q /\ n = Z.min (float_index (t_last / pt)) mp.
Proof.
  unfold presentations; destruct (Qeq_bool pt 0) eqn:E.
  - destruct (Qeq_bool t_last 0); discriminate.
  - intros H; injection H as <-; split; [|reflexivity].
    intros Hq; apply Qeq_bool_iff in Hq; congruence.
Qed.

(** X2: the figure has [3 + len(layers)] subplots and the shared counter of
    [next_subplot] numbers them 1, 2, ..., [3 + len(layers)] in drawing
    order, so no call asks for a subplot beyond the grid of [r] rows. *)
Theorem view_spiking_subplots t images labels classifier test pt mp layers sf f :
  figure (view_spiking t images labels classifier test pt mp layers sf) = VOk f ->
  map fst (fig_panels f) = seq 1 (3 + length layers).
Proof.
  intros H.
  destruct (view_spiking_figure_inv _ _ _ _ _ _ _ _ _ _ H)
    as (dt & tl & n & t' & c' & s' & ls' & img & bars & _ & _ & _ & _ & _ & _ & Hls & _ & _ & Hp & _).
  rewrite Hp.
  assert (Hlen : @length Mat layers = @length Mat ls')
    by exact (Forall2_length (map_result_Forall2 _ _ _ Hls)).
  destruct (raster_panels_index t' bars ls' 1 0) as [H1 H2].
  rewrite H1, map_cons, map_app, H2, <- Hlen; simpl map.
  replace (3 + length layers)%nat with (S (length layers + 2))%nat by lia.
  rewrite <- cons_seq, seq_app; cbn [seq fst]; do 4 f_equal; lia.
Qed.

Lemma mask_length {A} (g : Q -> bool) (t : list Q) (ys ys' : list A) :
  bool_mask (map g t) ys = Ok ys' -> length ys' = length (filter g t).
Proof. intros H; rewrite (bool_mask_length _ _ _ H); apply filter_map_length. Qed.

Lemma plot_bars_nonempty t pt bars : plot_bars t pt = Ok bars -> t <> [].
Proof.
  unfold plot_bars; destruct (py_last t) as [x|e] eqn:E; simpl; [|discriminate].
  intros _; destruct (py_last_ok _ _ E) as (l0 & ->); destruct l0; discriminate.
Qed.

Lemma raster_inj t s b j n t' s' b' j' n' :
  Raster t s b j n = Raster t' s' b' j' n' -> t = t' /\ s = s' /\ b = b' /\ j = j' /\ n = n'.
Proof. intros H; injection H; auto. Qed.

(** X3: every trace and raster of the figure is drawn against the same
    truncated time axis, the samples [t <= n_pres * pres_time] with
    [n_pres = min(int(t[-1] / pres_time), max_pres)], with one value per kept
    sample; and the dashed presentation bars of every subplot are those of
    the truncated axis, [np.arange(0, t[-1], pres_time)] read after [t] was
    rebound. *)
Theorem view_spiking_time_axis t images labels classifier test pt mp layers sf f :
  figure (view_spiking t images labels classifier test pt mp layers sf) = VOk f ->
  exists n_pres bars,
    let t' := filter (fun x => Qle_bool x (inject_Z n_pres * pt)) t in
    n_pres = Z.min (float_index (last t 0%Q / pt)) mp /\
    plot_bars t' pt = Ok bars /\
    forall k p, In (k, p) (fig_panels f) ->
      match p with
      | ImageStrip _ => True
      | Raster tp s b _ _ => tp = t' /\ length s = length t' /\ b = bars
      | Trace tp ys b _ _ => tp = t' /\ length ys = length t' /\ b = bars
      end.
Proof.
  intros H.
  destruct (view_spiking_figure_inv _ _ _ _ _ _ _ _ _ _ H)
    as (dt & tl & n & t' & c' & s' & ls' & img & bars &
        _ & Hl & Hn & Ht & Hc & Hs & Hls & _ & Hb & Hp & _).
  rewrite bool_mask_self in Ht; injection Ht as <-.
  exists n, bars; simpl.
  split; [rewrite <- (py_last_last _ _ 0%Q Hl); apply (presentations_ok _ _ _ _ Hn)|].
  split; [exact Hb|].
  intros k p Hin; rewrite Hp in Hin.
  destruct Hin as [Hin | Hin]; [injection Hin as _ <-; exact I|].
  apply in_app_or in Hin as [Hin | Hin].
  - destruct (raster_panels_content _ _ _ _ _ _ _ Hin) as (m & l & Hm & ->).
    split; [reflexivity|]; split; [|reflexivity].
    destruct (Forall2_nth_error_r _ _ _ _ _ (map_result_Forall2 _ _ _ Hls) Hm) as (l0 & _ & Hl0).
    rewrite <- (mask_length _ _ _ _ Hl0).
    destruct (max_neurons <? ncols l)%nat; [apply length_map | reflexivity].
  - destruct Hin as [Hin | [Hin | []]]; injection Hin as _ <-;
      (split; [reflexivity|]); (split; [|reflexivity]); eapply mask_length; eassumption.
Qed.

(** X4: the raster of layer [j] (counted from 1) is labelled with the
    layer's full neuron count [n], and its rows are the layer's rows at the
    kept time steps, each cut to its first [min(n, 200)] neurons
    ([layer[:, :max_neurons]]). *)
Theorem view_spiking_raster_cap t images labels classifier test pt mp layers sf f k tp s b j n :
  Forall (fun l => rectangular l = true) layers ->
  figure (view_spiking t images labels classifier test pt mp layers sf) = VOk f ->
  In (k, Raster tp s b j n) (fig_panels f) ->
  exists l l', (1 <= j)%nat /\ nth_error layers (pred j) = Some l /\ n = ncols l /\
    bool_mask (map (fun x => Qle_bool x (inject_Z (Z.min (float_index (last t 0%Q / pt)) mp) * pt))
                 t) l = Ok l' /\
    s = map (firstn max_neurons) l' /\
    Forall (fun row => length row = Nat.min n max_neurons) s.
Proof.
  intros Hrect H Hin.
  destruct (view_spiking_figure_inv _ _ _ _ _ _ _ _ _ _ H)
    as (dt & tl & np & t' & c' & s' & ls' & img & bars &
        _ & Hl & Hnp & Ht & _ & _ & Hls & _ & Hb & Hp & _).
  pose proof (py_last_last _ _ 0%Q Hl) as Etl; subst tl.
  destruct (presentations_ok _ _ _ _ Hnp) as [_ Enp]; subst np.
  rewrite Hp in Hin.
  destruct Hin as [Hin | Hin]; [discriminate|].
  apply in_app_or in Hin as [Hin | [Hin | [Hin | []]]]; [|discriminate|discriminate].
  destruct (raster_panels_content _ _ _ _ _ _ _ Hin) as (m & l' & Hm & Hr).
  destruct (raster_inj _ _ _ _ _ _ _ _ _ _ Hr) as (-> & -> & -> & -> & ->).
  destruct (Forall2_nth_error_r _ _ _ _ _ (map_result_Forall2 _ _ _ Hls) Hm) as (l0 & Hl0 & Hmask).
  (* the masked layer keeps rows of [l0], and at least one *)
  assert (Hne : l' <> []).
  { intros ->; apply (plot_bars_nonempty _ _ _ Hb).
    rewrite bool_mask_self in Ht; injection Ht as <-.
    pose proof (mask_length _ _ _ _ Hmask) as E; simpl in E.
    destruct (filter _ t); [reflexivity | discriminate]. }
  assert (Hrows : forall row, In row l' -> length row = ncols l0).
  { intros row Hrow; pose proof (bool_mask_incl _ _ _ _ Hmask Hrow) as Hrow0.
    rewrite Forall_forall in Hrect; specialize (Hrect l0 (nth_error_In _ _ Hl0)).
    unfold rectangular in Hrect; rewrite forallb_forall in Hrect.
    apply Nat.eqb_eq, Hrect, Hrow0. }
  assert (Hn : ncols l' = ncols l0).
  { destruct l' as [|row rows]; [congruence|]; apply Hrows; left; reflexivity. }
  assert (Hs : (if (max_neurons <? ncols l')%nat then map (firstn max_neurons) l' else l')
               = map (firstn max_neurons) l').
  { destruct (max_neurons <? ncols l')%nat eqn:Ec; [reflexivity|].
    apply Nat.ltb_ge in Ec.
    transitivity (map (fun r => r) l'); [symmetry; apply map_id|].
    apply map_ext_in; intros row Hrow; symmetry; apply firstn_all2.
    rewrite (Hrows _ Hrow); lia. }
  exists l0, l'; split; [lia|]; split; [exact Hl0|]; split; [exact Hn|].
  split; [exact Hmask|]; split; [exact Hs|].
  unfold Mat, Vec in *; rewrite Hs, Hn; apply Forall_forall; intros row Hrow.
  apply in_map_iff in Hrow as (row0 & <- & Hrow0).
  rewrite length_firstn, (Hrows _ Hrow0); lia.
Qed.

(** X5: with a time axis of at least two samples and a non-zero
    presentation time, a classifier trace, a correctness trace or a layer
    that ends before a sample the mask keeps (a position [i] of [t] with
    [t[i] <= n_pres * pres_time]) makes the masking of lines 104-106 raise
    IndexError: no figure is shown. *)
Theorem view_spiking_mask_mismatch t images labels classifier test pt mp layers sf :
  (2 <= length t)%nat -> ~ (pt == 0)%Q ->
  let n_pres := Z.min (float_index (last t 0%Q / pt)) mp in
  (exists i x, nth_error t i = Some x /\ (x <= inject_Z n_pres * pt)%Q /\
     ((length classifier <= i)%nat \/ (length test <= i)%nat \/
      Exists (fun l => (length l <= i)%nat) layers)) ->
  figure (view_spiking t images labels classifier test pt mp layers sf) = VRaise (PyError IndexError).
Proof.
  intros Ht Hpt n_pres (i & x & Hi & Hx & Hmis).
  assert (Hdt : exists dt, sample_step t = Ok dt).
  { destruct t as [|a [|b r]]; simpl in Ht; try lia; eexists; reflexivity. }
  destruct Hdt as (dt & Hdt).
  destruct (py_last_nonempty t) as (tl & Htl); [destruct t; simpl in Ht; [lia | discriminate]|].
  unfold view_spiking; rewrite Hdt; cbn [figure].
  rewrite Htl; cbn [lift vbind].
  pose proof (py_last_last _ _ 0%Q Htl) as Etl; subst tl.
  unfold presentations.
  replace (Qeq_bool pt 0) with false
    by (symmetry; apply not_true_iff_false; intros E; apply Qeq_bool_iff in E; contradiction).
  cbn [vbind].
  set (g := fun x => Qle_bool x _).
  assert (Hk : nth_error (map g t) i = Some true).
  { rewrite nth_error_map, Hi; simpl; f_equal; apply Qle_bool_iff; exact Hx. }
  rewrite bool_mask_self; cbn [lift vbind].
  destruct Hmis as [Hc | [Hs | Hl]].
  - rewrite bool_mask_out by (exists i; split; [exact Hk | exact Hc]); reflexivity.
  - destruct (bool_mask (map g t) classifier) as [c'|e] eqn:Ec; cbn [lift vbind].
    + rewrite bool_mask_out by (exists i; split; [exact Hk | exact Hs]); reflexivity.
    + rewrite (bool_mask_raise _ _ _ Ec); reflexivity.
  - destruct (bool_mask (map g t) classifier) as [c'|e] eqn:Ec; cbn [lift vbind].
    + destruct (bool_mask (map g t) test) as [s'|e] eqn:Es; cbn [lift vbind].
      * rewrite map_result_mask_out; [reflexivity|].
        revert Hl; apply Exists_impl; intros l Hli; exists i; split; [exact Hk | exact Hli].
      * rewrite (bool_mask_raise _ _ _ Es); reflexivity.
    + rewrite (bool_mask_raise _ _ _ Ec); reflexivity.
Qed.

(** The image strip. *)

Lemma skipn_repeat' {A} (x : A) n m : skipn n (repeat x m) = repeat x (m - n).
Proof.
  revert m; induction n as [|n IH]; intros m; [rewrite Nat.sub_0_r; reflexivity|].
  destruct m; simpl; [reflexivity | apply IH].
Qed.

Lemma combine_map_same {A B C} (f : A -> B) (g : A -> C) l :
  combine (map f l) (map g l) = map (fun x => (f x, g x)) l.
Proof. induction l; simpl; congruence. Qed.

Lemma image_row_length r img : (r < 28)%nat -> length img = 784%nat -> length (image_row r img) = 28%nat.
Proof. intros Hr Hi; unfold image_row; rewrite length_firstn, length_skipn; lia. Qed.

Lemma length_concat_blocks (bs : list Vec) :
  Forall (fun b => length b = 28%nat) bs -> length (concat bs) = (28 * length bs)%nat.
Proof.
  induction 1 as [|b bs Hb _ IH]; simpl; [reflexivity|].
  rewrite length_app, Hb, IH; lia.
Qed.

Lemma image_rows_Forall r P :
  (r < 28)%nat -> Forall (fun img => length img = 784%nat) P ->
  Forall (fun b => length b = 28%nat) (map (image_row r) P).
Proof.
  intros Hr HP; apply Forall_map; eapply Forall_impl; [|exact HP].
  intros img Hi; apply image_row_length; assumption.
Qed.

Lemma reshape28_ok img :
  length img = 784%nat -> reshape28 img = Ok (map (fun r => image_row r img) (seq 0 28)).
Proof. intros H; unfold reshape28; rewrite H; reflexivity. Qed.

Lemma set_block_strip P img k :
  Forall (fun img => length img = 784%nat) P -> length img = 784%nat ->
  set_block (strip P (S k)) (map (fun r => image_row r img) (seq 0 28)) (length P * 28) =
  strip (P ++ [img]) k.
Proof.
  intros HP Hi; unfold set_block, strip.
  rewrite combine_map_same, map_map; apply map_ext_in; intros r Hr; cbn beta iota delta [fst snd].
  apply in_seq in Hr.
  assert (Hl : length (concat (map (image_row r) P)) = (length P * 28)%nat).
  { rewrite length_concat_blocks by (apply image_rows_Forall; [lia | exact HP]).
    rewrite length_map; unfold Vec in *; lia. }
  rewrite firstn_app, skipn_app, Hl, Nat.sub_diag, firstn_O, app_nil_r.
  rewrite firstn_all2 by lia.
  rewrite skipn_all2 by lia; rewrite app_nil_l.
  replace (length P * 28 + 28 - length P * 28)%nat with 28%nat by lia.
  rewrite skipn_repeat', map_app, concat_app; cbn [map concat].
  rewrite app_nil_r, <- !app_assoc; do 3 f_equal; lia.
Qed.

Lemma allimage_fold R : forall P,
  Forall (fun img => length img = 784%nat) P ->
  Forall (fun img => length img = 784%nat) R ->
  fold_left (fun acc (iimg : nat * Vec) =>
      c <- acc ;;
      blk <- reshape28 (snd iimg) ;;
      Ok (set_block c blk (fst iimg * 28)))
    (combine (seq (length P) (length R)) R) (Ok (strip P (length R))) =
  Ok (strip (P ++ R) 0).
Proof.
  induction R as [|img R IH]; intros P HP HR; cbn [length seq combine fold_left].
  - rewrite app_nil_r; reflexivity.
  - inversion HR as [|? ? Hi HR']; subst.
    cbn beta iota delta [bind fst snd].
    rewrite reshape28_ok by exact Hi; cbn [bind].
    rewrite set_block_strip by assumption.
    replace (S (length P)) with (length (P ++ [img])) by (rewrite length_app; simpl; lia).
    rewrite IH; [rewrite <- app_assoc; reflexivity | | exact HR'].
    apply Forall_app; split; [exact HP | constructor; [exact Hi | constructor]].
Qed.

Lemma allimage_strip images :
  Forall (fun img => length img = 784%nat) images -> allimage images = Ok (strip images 0).
Proof.
  intros H; unfold allimage.
  pose proof (allimage_fold images [] (Forall_nil _) H) as E; simpl in E.
  rewrite <- E; reflexivity.
Qed.

Lemma nth_concat_blocks (bs : list Vec) i c d :
  Forall (fun b => length b = 28%nat) bs -> (i < length bs)%nat -> (c < 28)%nat ->
  nth (28 * i + c) (concat bs) d = nth c (nth i bs []) d.
Proof.
  intros H; revert i; induction H as [|b bs Hb _ IH]; intros i Hi Hc; simpl in Hi; [lia|].
  destruct i as [|i]; simpl concat.
  - rewrite app_nth1 by lia; reflexivity.
  - rewrite app_nth2 by lia; rewrite Hb.
    replace (28 * S i + c - 28)%nat with (28 * i + c)%nat by lia.
    apply IH; lia.
Qed.

(** What [allimage] holds when every image has 784 pixels. *)
Lemma allimage_ok_layout images :
  Forall (fun img => length img = 784%nat) images ->
  exists a, allimage images = Ok a /\ length a = 28%nat /\
    Forall (fun row => length row = (28 * length images)%nat) a /\
    forall r i c, (r < 28)%nat -> (i < length images)%nat -> (c < 28)%nat ->
      nth (28 * i + c) (nth r a []) 0%Q = nth (28 * r + c) (nth i images []) 0%Q.
Proof.
  intros H; exists (strip images 0); split; [apply allimage_strip, H|].
  split; [unfold strip; rewrite length_map, length_seq; reflexivity|].
  split.
  - unfold strip; apply Forall_map, Forall_forall; intros r Hr; apply in_seq in Hr.
    rewrite length_app, length_concat_blocks by (apply image_rows_Forall; [lia | exact H]).
    unfold Vec in *; rewrite length_map; simpl; lia.
  - intros r i c Hr Hi Hc; unfold strip.
    rewrite (nth_map_lt _ _ _ _ 0%nat) by (rewrite length_seq; lia).
    rewrite seq_nth by lia; rewrite Nat.add_0_l, Nat.mul_0_r; cbn [repeat].
    rewrite app_nil_r, nth_concat_blocks by
      (try apply image_rows_Forall; try rewrite length_map; assumption || lia).
    rewrite (nth_map_lt (image_row r) images i [] []) by (unfold Vec in *; lia).
    unfold image_row; rewrite nth_firstn, nth_skipn.
    replace (c <? 28)%nat with true by (symmetry; apply Nat.ltb_lt; lia); reflexivity.
Qed.

Lemma allimage_fold_raise l : forall e,
  fold_left (fun acc (iimg : nat * Vec) =>
      c <- acc ;;
      blk <- reshape28 (snd iimg) ;;
      Ok (set_block c blk (fst iimg * 28))) l (Raise e) = Raise e.
Proof. induction l; simpl; auto. Qed.

Lemma reshape28_ok_length img blk : reshape28 img = Ok blk -> length img = 784%nat.
Proof. unfold reshape28; destruct (length img =? 784)%nat eqn:E; [intros _; apply Nat.eqb_eq, E | discriminate]. Qed.

Lemma reshape28_raise img e : reshape28 img = Raise e -> e = ValueError.
Proof. unfold reshape28; destruct (length img =? 784)%nat; congruence. Qed.

Lemma allimage_fold_bad R : forall s acc,
  length s = length R ->
  (forall e, acc = Raise e -> e = ValueError) ->
  Exists (fun img => length img <> 784%nat) R ->
  fold_left (fun acc (iimg : nat * Vec) =>
      c <- acc ;;
      blk <- reshape28 (snd iimg) ;;
      Ok (set_block c blk (fst iimg * 28))) (combine s R) acc = Raise ValueError.
Proof.
  induction R as [|img R IH]; intros s acc Hs Hacc HE; [inversion HE|].
  destruct s as [|n s]; cbn [length] in Hs; [lia|]; cbn [combine fold_left].
  destruct acc as [c|e]; cbn beta iota delta [bind fst snd].
  - destruct (reshape28 img) as [blk|e] eqn:Er; cbn [bind].
    + inversion HE as [? ? Hbad | ? ? HR]; subst.
      * apply reshape28_ok_length in Er; contradiction.
      * apply IH; [lia | discriminate | exact HR].
    + rewrite (reshape28_raise _ _ Er); apply allimage_fold_raise.
  - rewrite (Hacc e eq_refl); apply allimage_fold_raise.
Qed.

Lemma allimage_bad images :
  Exists (fun img => length img <> 784%nat) images -> allimage images = Raise ValueError.
Proof.
  intros H; unfold allimage; apply allimage_fold_bad; [rewrite length_seq; reflexivity | discriminate | exact H].
Qed.

Lemma allimage_ok_rows images a :
  allimage images = Ok a ->
  length a = 28%nat /\ Forall (fun row => length row = (28 * length images)%nat) a.
Proof.
  intros H.
  destruct (Forall_Exists_dec (fun img : Vec => length img = 784%nat)
              (fun img => Nat.eq_dec (length img) 784) images) as [Hall | Hbad].
  - destruct (allimage_ok_layout _ Hall) as (a' & Ha' & Hl & Hr & _).
    rewrite Ha' in H; injection H as <-; split; assumption.
  - rewrite allimage_bad in H by exact Hbad; discriminate.
Qed.

(** X6: the image strip is a 28 x (28 * len(images)) canvas whose block
    [i] holds image [i] reshaped to 28 x 28: pixel [(r, 28 i + c)] of the
    strip is pixel [28 r + c] of image [i]. *)
Theorem allimage_layout images :
  Forall (fun img => length img = 784%nat) images ->
  exists a, allimage images = Ok a /\ length a = 28%nat /\
    Forall (fun row => length row = (28 * length images)%nat) a /\
    forall r i c, (r < 28)%nat -> (i < length images)%nat -> (c < 28)%nat ->
      nth (28 * i + c) (nth r a []) 0%Q = nth (28 * r + c) (nth i images []) 0%Q.
Proof. apply allimage_ok_layout. Qed.

(** X7: an image that does not have 784 pixels makes [image.reshape(28, 28)]
    raise ValueError, whatever its position among the images shown. *)
Theorem allimage_bad_size images :
  Exists (fun img => length img <> 784%nat) images -> allimage images = Raise ValueError.
Proof. apply allimage_bad. Qed.

(** X8: for a non-negative last time, a positive presentation time and a
    non-negative [max_pres], the first subplot is the image strip of the
    first [n_pres = min(int(t[-1] / pres_time), max_pres)] images (fewer if
    there are fewer): 28 rows of [28 * min(n_pres, len(images))] pixels, so
    never more than [max_pres] images. *)
Theorem view_spiking_image_strip t images labels classifier test pt mp layers sf f k img :
  (0 <= last t 0%Q)%Q -> (0 < pt)%Q -> 0 <= mp ->
  figure (view_spiking t images labels classifier test pt mp layers sf) = VOk f ->
  In (k, ImageStrip img) (fig_panels f) ->
  let m := Nat.min (Z.to_nat (Z.min (float_index (last t 0%Q / pt)) mp)) (length images) in
  k = 1%nat /\ (m <= Z.to_nat mp)%nat /\ length img = 28%nat /\
  Forall (fun row => length row = (28 * m)%nat) img.
Proof.
  intros Htl Hpt Hmp H Hin.
  destruct (view_spiking_figure_inv _ _ _ _ _ _ _ _ _ _ H)
    as (dt & tl & np & t' & c' & s' & ls' & img' & bars &
        _ & Hl & Hn & _ & _ & _ & _ & Hi & _ & Hp & _).
  rewrite <- (py_last_last _ _ 0%Q Hl) in Htl |- *.
  destruct (presentations_ok _ _ _ _ Hn) as [_ Hnp].
  rewrite <- Hnp.
  assert (Hq : 0 <= float_index (tl / pt)).
  { apply float_index_nonneg; apply Qle_shift_div_l; [exact Hpt|]; rewrite Qmult_0_l; exact Htl. }
  assert (Hnp0 : 0 <= np) by lia.
  rewrite Hp in Hin.
  destruct Hin as [Hin | Hin].
  2:{ exfalso; apply in_app_or in Hin as [Hin | [Hin | [Hin | []]]]; try discriminate.
      destruct (raster_panels_content _ _ _ _ _ _ _ Hin) as (m & l & _ & E); discriminate. }
  injection Hin as <- <-.
  unfold py_slice_to in Hi; replace (np <? 0) with false in Hi by lia.
  destruct (allimage_ok_rows _ _ Hi) as [Hlen Hrows].
  rewrite length_firstn in Hrows.
  split; [reflexivity|]; split; [lia|]; split; [exact Hlen|].
  eapply Forall_impl; [|exact Hrows]; intros row Hrow; cbv beta in Hrow |- *.
  unfold Vec in *; lia.
Qed.

(** Firing rates. *)


Lemma sum_bounds (l : list Q) :
  Forall (fun x => 0 <= x <= 1)%Q l ->
  (0 <= fold_right Qplus 0 l <= inject_Z (Z.of_nat (length l)))%Q.
Proof.
  induction 1 as [|x l [Hx0 Hx1] _ [IH0 IH1]]; [split; apply Qle_refl|].
  cbn [fold_right length]; rewrite Nat2Z.inj_succ, <- Z.add_1_r, inject_Z_plus.
  split.
  - apply (Qle_trans _ (0 + 0)); [apply Qle_refl | apply Qplus_le_compat; assumption].
  - rewrite Qplus_comm; apply Qplus_le_compat; assumption.
Qed.

Lemma mean_unit (l : list Q) m :
  Forall (fun x => 0 <= x <= 1)%Q l -> mean l = Some m -> (0 <= m <= 1)%Q.
Proof.
  intros Hl Hm; destruct l as [|y l']; [discriminate|].
  injection Hm as <-.
  assert (Hn : (0 < inject_Z (Z.of_nat (length (y :: l'))))%Q)
    by (unfold Qlt; simpl; lia).
  destruct (sum_bounds _ Hl) as [H0 H1].
  split.
  - apply Qle_shift_div_l; [exact Hn|]; rewrite Qmult_0_l; exact H0.
  - apply Qle_shift_div_r; [exact Hn|]; rewrite Qmult_1_l; exact H1.
Qed.

Lemma fraction_above_unit c layer f :
  fraction_above c layer = Some f -> (0 <= f <= 1)%Q.
Proof.
  apply mean_unit; apply Forall_map, Forall_forall; intros x _.
  destruct (Qltb c x); split; discriminate.
Qed.

Lemma fraction_above_none c layer : fraction_above c layer = None <-> concat layer = [].
Proof.
  unfold fraction_above, mean.
  destruct (concat layer); simpl; split; congruence.
Qed.

Lemma mapi_rates (g : Mat -> option Q) : forall (layers : list Mat) i,
  map fst (mapi_from (fun i layer => (S i, g layer)) i layers) = seq (S i) (length layers) /\
  Forall2 (fun layer ir => snd ir = g layer) layers (mapi_from (fun i layer => (S i, g layer)) i layers).
Proof.
  induction layers as [|l ls IH]; intros i; simpl; [split; constructor|].
  destruct (IH (S i)) as [H1 H2]; split; [rewrite H1; reflexivity | constructor; [reflexivity | exact H2]].
Qed.

(** X10: as soon as the time axis has two samples with a positive step
    [dt], [view_spiking] prints one rate per layer, numbered 1, 2, ...,
    before anything can fail; the rate is NaN exactly for a layer with no
    entries, and any other rate [r] satisfies [0 <= r <= 1/dt] (a neuron
    spikes at most once per step). *)
Theorem view_spiking_rates t images labels classifier test pt mp layers sf dt :
  sample_step t = Ok dt -> (0 < dt)%Q ->
  let v := view_spiking t images labels classifier test pt mp layers sf in
  map fst (printed_rates v) = seq 1 (length layers) /\
  Forall2 (fun layer ir => match snd ir with
                           | None => concat layer = []
                           | Some r => concat layer <> [] /\ (0 <= r /\ r * dt <= 1)%Q
                           end) layers (printed_rates v).
Proof.
  intros Hdt Hpos v; subst v; unfold view_spiking; rewrite Hdt; cbn [printed_rates].
  destruct (mapi_rates (spike_rate dt) layers 0) as [H1 H2].
  split; [exact H1|].
  eapply Forall2_impl; [|exact H2]; intros layer ir Hir; rewrite Hir.
  unfold spike_rate.
  replace (Qeq_bool dt 0) with false
    by (symmetry; apply not_true_iff_false; intros E; apply Qeq_bool_iff in E;
        rewrite E in Hpos; apply (Qlt_irrefl 0); exact Hpos).
  destruct (fraction_above 0 layer) as [fr|] eqn:Ef.
  - destruct (fraction_above_unit _ _ _ Ef) as [F0 F1].
    split; [intros E; pose proof (proj2 (fraction_above_none 0 layer) E); congruence|].
    split.
    + apply Qle_shift_div_l; [exact Hpos|]; rewrite Qmult_0_l; exact F0.
    + setoid_replace (fr / dt * dt)%Q with fr; [exact F1|].
      field; intros E; rewrite E in Hpos; apply (Qlt_irrefl 0); exact Hpos.
  - apply (proj1 (fraction_above_none _ _) Ef).
Qed.

(** ** Properties of view_static and of the static branch *)

Lemma sum_mono (l1 l2 : list Q) :
  Forall2 (fun x y => x <= y)%Q l1 l2 -> (fold_right Qplus 0 l1 <= fold_right Qplus 0 l2)%Q.
Proof.
  induction 1 as [|x y l1 l2 Hxy _ IH]; [apply Qle_refl|].
  cbn [fold_right]; apply Qplus_le_compat; assumption.
Qed.

Lemma mean_mono (l1 l2 : list Q) a b :
  Forall2 (fun x y => x <= y)%Q l1 l2 -> mean l1 = Some a -> mean l2 = Some b -> (a <= b)%Q.
Proof.
  intros H Ha Hb.
  pose proof (Forall2_length H) as Hlen.
  destruct l1 as [|x l1']; [discriminate|]; destruct l2 as [|y l2']; [discriminate|].
  injection Ha as <-; injection Hb as <-.
  cbn [length] in Hlen; injection Hlen as Hlen; rewrite Hlen.
  set (n := inject_Z (Z.pos (Pos.of_succ_nat (length l2')))).
  assert (Hn : (0 < n)%Q) by (unfold n, Qlt; simpl; lia).
  apply Qle_shift_div_r; [exact Hn|].
  setoid_replace ((y + fold_right Qplus 0 l2') / n * n)%Q with (y + fold_right Qplus 0 l2')%Q.
  - apply (sum_mono (x :: l1') (y :: l2')); exact H.
  - field; intros E; rewrite E in Hn; apply (Qlt_irrefl 0); exact Hn.
Qed.

(** The three numbers printed for a layer. *)
Lemma layer_line_bounds (layer : Mat) :
  (mean (concat layer) = None /\ fraction_above 0 layer = None /\ fraction_above 1 layer = None) \/
  (exists a b, fraction_above 0 layer = Some a /\ fraction_above 1 layer = Some b /\
     (0 <= b /\ b <= a /\ a <= 1)%Q).
Proof.
  unfold fraction_above.
  destruct (concat layer) as [|x xs] eqn:E; [left; repeat split|right].
  do 2 eexists; split; [reflexivity|]; split; [reflexivity|].
  set (l0 := map (fun x => if Qltb 0 x then 1%Q else 0%Q) (x :: xs)).
  set (l1 := map (fun x => if Qltb 1 x then 1%Q else 0%Q) (x :: xs)).
  assert (Hu : forall c, Forall (fun y => 0 <= y <= 1)%Q
                 (map (fun x => if Qltb c x then 1%Q else 0%Q) (x :: xs))).
  { intros c; apply Forall_map, Forall_forall; intros y _; destruct (Qltb c y); split; discriminate. }
  destruct (mean_unit l0 _ (Hu 0%Q) eq_refl) as [_ A1].
  destruct (mean_unit l1 _ (Hu 1%Q) eq_refl) as [B0 _].
  split; [exact B0|]; split; [|exact A1].
  apply (mean_mono l1 l0); [|reflexivity|reflexivity].
  unfold l0, l1; clear.
  induction (x :: xs) as [|y ys IH]; cbn [map]; constructor; [|exact IH].
  destruct (Qltb 1 y) eqn:E1.
  - apply Qltb_iff in E1.
    replace (Qltb 0 y) with true; [apply Qle_refl|].
    symmetry; apply Qltb_iff; apply (Qlt_trans _ 1); [reflexivity | exact E1].
  - destruct (Qltb 0 y); discriminate.
Qed.

Lemma layer_lines_Forall2 : forall (layers : list Mat) i,
  Forall2 (fun j e => exists m a b, e = LayerLine j m a b /\
             ((m = None /\ a = None /\ b = None) \/
              (exists a' b', a = Some a' /\ b = Some b' /\ (0 <= b' /\ b' <= a' /\ a' <= 1)%Q)))
    (seq i (length layers))
    (mapi_from (fun i layer =>
       LayerLine i (mean (concat layer)) (fraction_above 0 layer) (fraction_above 1 layer)) i layers).
Proof.
  induction layers as [|l ls IH]; intros i; simpl; constructor; [|apply IH].
  do 3 eexists; split; [reflexivity|].
  destruct (layer_line_bounds l) as [(H1 & H2 & H3) | (a & b & H1 & H2 & H3)].
  - left; repeat split; assumption.
  - right; exists a, b; repeat split; tauto.
Qed.

(** X11: [view_static] starts by printing one line per layer, numbered
    from 0; each line's two sparsities are NaN together with the mean (an
    empty layer) or satisfy [0 <= frac(> 1) <= frac(> 0) <= 1]. *)
Theorem view_static_layer_lines reg params images labels neuron layers codes yc :
  propup_static pydict reg params images neuron = Ok (layers, codes, yc) ->
  exists lines rest,
    s_events (view_static reg params images labels neuron) = lines ++ rest /\
    Forall2 (fun j e => exists m a b, e = LayerLine j m a b /\
               ((m = None /\ a = None /\ b = None) \/
                (exists a' b', a = Some a' /\ b = Some b' /\ (0 <= b' /\ b' <= a' /\ a' <= 1)%Q)))
      (seq 0 (length layers)) lines.
Proof.
  intros H; unfold view_static; rewrite H.
  destruct (concat yc); cbn [s_events].
  - eexists; exists []; split; [symmetry; apply app_nil_r | apply layer_lines_Forall2].
  - eexists; eexists; split; [reflexivity | apply layer_lines_Forall2].
Qed.



Lemma find_key_none (P : pydict) k :
  ~ In k (map fst P) -> find (fun kv => String.eqb (fst kv) k) P = None.
Proof.
  intros Hk; destruct (find _ P) as [kv|] eqn:E; [|reflexivity].
  apply find_some in E as [Hin Heq]; apply String.eqb_eq in Heq.
  exfalso; apply Hk; rewrite <- Heq; apply in_map; exact Hin.
Qed.

Lemma find_key_some (P : pydict) k :
  In k (map fst P) -> exists kv, find (fun kv => String.eqb (fst kv) k) P = Some kv.
Proof.
  intros Hk; destruct (find _ P) as [kv|] eqn:E; [eauto|].
  apply in_map_iff in Hk as (kv & <- & Hin).
  pose proof (find_none _ _ E kv Hin) as F; simpl in F.
  rewrite String.eqb_refl in F; discriminate.
Qed.

(** X13: the static branch checks that the labels have as many distinct
    values as [bc] has entries before printing anything, and raises
    AssertionError otherwise; when the neuron parameters (the archive's, or
    the defaults) have no [sigma], it prints the softlif result and then
    raises KeyError at [pop('sigma')], before the lif network or
    [view_static] runs. *)
Theorem static_branch_errors reg params entry images labels :
  let P := match entry with Some (_, p) => p | None => default_neuron_params end in
  (length (unique labels) <> length (bc params) ->
   static_branch reg params entry (images, labels) = mk_static_run [] (Raise AssertionError)) /\
  (forall errs1,
   length (unique labels) = length (bc params) ->
   compute_static_error pydict reg params images labels ("softlif", P)%string = Ok errs1 ->
   ~ In "sigma"%string (map fst P) ->
   static_branch reg params entry (images, labels) =
     mk_static_run [StaticHeader "----- Static network with softlif -----"; StaticErrors errs1]%string
       (Raise KeyError)).
Proof.
  intros P; split.
  - intros Hn; unfold static_branch; cbn [fst snd].
    replace (length (unique labels) =? length (bc params))%nat with false
      by (symmetry; apply Nat.eqb_neq; exact Hn); reflexivity.
  - intros errs1 Hn Hsoft Hsig; unfold static_branch; cbn [fst snd].
    replace (length (unique labels) =? length (bc params))%nat with true
      by (symmetry; apply Nat.eqb_eq; exact Hn); cbn [negb].
    fold P; rewrite Hsoft.
    unfold dict_pop; rewrite find_key_none by exact Hsig; reflexivity.
Qed.

(** X14: when the check passes and the parameters [P] have a [sigma], the
    static branch evaluates the softlif network on [P] itself (the [pop] acts
    on a copy), then the lif network on [P] without [sigma], printing a
    header and the error of each in that order, and ends with [view_static]
    on the lif network. *)
Theorem static_branch_runs reg params entry images labels s errs1 errs2 :
  let P := match entry with Some (_, p) => p | None => default_neuron_params end in
  let lif_params : pydict := filter (fun kv => negb (String.eqb (fst kv) "sigma")) P in
  length (unique labels) = length (bc params) ->
  In ("sigma"%string, s) P ->
  compute_static_error pydict reg params images labels ("softlif", P)%string = Ok errs1 ->
  compute_static_error pydict reg params images labels ("lif", lif_params)%string = Ok errs2 ->
  static_branch reg params entry (images, labels) =
    mk_static_run
      ([StaticHeader "----- Static network with softlif -----"; StaticErrors errs1;
        StaticHeader "----- Static network with lif -----"; StaticErrors errs2]%string ++
       s_events (view_static reg params images labels ("lif", lif_params)%string))
      (s_outcome (view_static reg params images labels ("lif", lif_params)%string)).
Proof.
  intros P lif_params Hn Hsig Hsoft Hlif; unfold static_branch; cbn [fst snd].
  replace (length (unique labels) =? length (bc params))%nat with true
    by (symmetry; apply Nat.eqb_eq; exact Hn); cbn [negb].
  fold P; rewrite Hsoft.
  destruct (find_key_some P "sigma") as (kv & Hkv);
    [apply in_map_iff; exists ("sigma"%string, s); split; [reflexivity | exact Hsig]|].
  unfold dict_pop; rewrite Hkv; cbn [snd].
  unfold lif_params in Hlif; rewrite Hlif; reflexivity.
Qed.

(** ** Witnesses of the properties above *)

Lemma spiking_error_windows_witness :
  (0 <= 5 # 100)%Q /\
  compute_spiking_error ex_t ex_late_signal 1 (5 # 100) (1 # 2) = Ok [true] /\
  exists pl windows,
    window_len ex_t 1 = Ok pl /\ 0 < pl /\
    concat windows = flat ex_late_signal /\
    Forall (fun w => length w = Z.to_nat pl) windows /\
    [true] = map (fun w => nan_lt (mean (skipn (Z.to_nat pl -
              (if float_index (5 # 100) =? 0 then Z.to_nat pl
               else Nat.min (Z.to_nat (float_index (5 # 100))) (Z.to_nat pl))) w)) (1 # 2)) windows.
Proof.
  split; [unfold Qle; simpl; lia|].
  split; [vm_compute; reflexivity|].
  apply spiking_error_windows; [unfold Qle; simpl; lia | vm_compute; reflexivity].
Defined.

Lemma view_spiking_subplots_witness :
  exists f, figure ex_view = VOk f /\ map fst (fig_panels f) = seq 1 (3 + length [ex_images]).
Proof.
  exists (match figure ex_view with VOk f => f | VRaise _ => mk_spiking_figure [] None end).
  split; [vm_compute; reflexivity|].
  apply (view_spiking_subplots ex_t [ex_blank_image] [7] [[0]; [1]]%Q [[1]; [1]]%Q (1 # 100) 20
           [ex_images] None).
  vm_compute; reflexivity.
Defined.

Lemma view_spiking_time_axis_witness :
  exists f, figure ex_view = VOk f /\
  exists n_pres bars,
    let t' := filter (fun x => Qle_bool x (inject_Z n_pres * (1 # 100))) ex_t in
    n_pres = Z.min (float_index (last ex_t 0%Q / (1 # 100))) 20 /\
    plot_bars t' (1 # 100) = Ok bars /\
    forall k p, In (k, p) (fig_panels f) ->
      match p with
      | ImageStrip _ => True
      | Raster tp s b _ _ => tp = t' /\ length s = length t' /\ b = bars
      | Trace tp ys b _ _ => tp = t' /\ length ys = length t' /\ b = bars
      end.
Proof.
  exists (match figure ex_view with VOk f => f | VRaise _ => mk_spiking_figure [] None end).
  split; [vm_compute; reflexivity|].
  apply (view_spiking_time_axis ex_t [ex_blank_image] [7] [[0]; [1]]%Q [[1]; [1]]%Q (1 # 100) 20
           [ex_images] None).
  vm_compute; reflexivity.
Defined.

Lemma view_spiking_raster_cap_witness :
  exists f tp s b, figure ex_wide_view = VOk f /\ In (2%nat, Raster tp s b 1 201) (fig_panels f) /\
  exists l l', (1 <= 1)%nat /\ nth_error [ex_wide_layer] (pred 1) = Some l /\ 201%nat = ncols l /\
    bool_mask (map (fun x => Qle_bool x (inject_Z (Z.min (float_index (last ex_t 0%Q / (1 # 100))) 20)
                                         * (1 # 100))) ex_t) l = Ok l' /\
    s = map (firstn max_neurons) l' /\
    Forall (fun row => length row = Nat.min 201 max_neurons) s.
Proof.
  set (f := match figure ex_wide_view with VOk f => f | VRaise _ => mk_spiking_figure [] None end).
  assert (Hf : figure ex_wide_view = VOk f) by (vm_compute; reflexivity).
  do 4 eexists; split; [exact Hf|].
  assert (Hin : In (2%nat, Raster _ _ _ 1 201) (fig_panels f)) by (vm_compute; right; left; reflexivity).
  split; [exact Hin|].
  eapply (view_spiking_raster_cap ex_t [ex_blank_image] [7] [[0]; [1]]%Q [[1]; [1]]%Q (1 # 100) 20
           [ex_wide_layer] None f 2); [vm_compute; repeat constructor | exact Hf | exact Hin].
Defined.

Lemma view_spiking_mask_mismatch_witness :
  figure (view_spiking ex_t [ex_blank_image] [7] [[0]]%Q [[1]; [1]]%Q (1 # 100) 20 [ex_images] None) =
    VRaise (PyError IndexError).
Proof.
  apply view_spiking_mask_mismatch; [simpl; lia | vm_compute; discriminate |].
  exists 1%nat, (1 # 100)%Q; split; [reflexivity|]; split; [vm_compute; discriminate|].
  left; simpl; lia.
Defined.

Lemma allimage_layout_witness :
  exists a, allimage [ex_blank_image] = Ok a /\ length a = 28%nat /\
    Forall (fun row => length row = (28 * length [ex_blank_image])%nat) a /\
    forall r i c, (r < 28)%nat -> (i < length [ex_blank_image])%nat -> (c < 28)%nat ->
      nth (28 * i + c) (nth r a []) 0%Q = nth (28 * r + c) (nth i [ex_blank_image] []) 0%Q.
Proof. apply allimage_layout; repeat constructor. Defined.

Lemma allimage_bad_size_witness : allimage [ex_blank_image; [1]%Q] = Raise ValueError.
Proof. apply allimage_bad_size; right; left; simpl; discriminate. Defined.

Lemma view_spiking_image_strip_witness :
  exists f img, figure ex_view = VOk f /\ In (1%nat, ImageStrip img) (fig_panels f) /\
  let m := Nat.min (Z.to_nat (Z.min (float_index (last ex_t 0%Q / (1 # 100))) 20))
                   (length [ex_blank_image]) in
  (1 = 1)%nat /\ (m <= Z.to_nat 20)%nat /\ length img = 28%nat /\
  Forall (fun row => length row = (28 * m)%nat) img.
Proof.
  set (f := match figure ex_view with VOk f => f | VRaise _ => mk_spiking_figure [] None end).
  assert (Hf : figure ex_view = VOk f) by (vm_compute; reflexivity).
  do 2 eexists; split; [exact Hf|].
  assert (Hin : In (1%nat, ImageStrip _) (fig_panels f)) by (vm_compute; left; reflexivity).
  split; [exact Hin|].
  eapply (view_spiking_image_strip ex_t [ex_blank_image] [7] [[0]; [1]]%Q [[1]; [1]]%Q (1 # 100) 20
           [ex_images] None f 1); [vm_compute; discriminate | reflexivity | lia | exact Hf | exact Hin].
Defined.


Lemma view_spiking_rates_witness :
  map fst (printed_rates ex_view) = seq 1 (length [ex_images]) /\
  Forall2 (fun layer ir => match snd ir with
                           | None => concat layer = []
                           | Some r => concat layer <> [] /\ (0 <= r /\ r * (1 # 100) <= 1)%Q
                           end) [ex_images] (printed_rates ex_view).
Proof.
  apply (view_spiking_rates ex_t [ex_blank_image] [7] [[0]; [1]]%Q [[1]; [1]]%Q (1 # 100) 20
           [ex_images] None (1 # 100)); reflexivity.
Defined.

Lemma view_static_layer_lines_witness :
  exists layers codes yc,
    propup_static pydict relu_dict_registry ex_hidden_params ex_images ("lif", [])%string =
      Ok (layers, codes, yc) /\
  exists lines rest,
    s_events (view_static relu_dict_registry ex_hidden_params ex_images ex_labels ("lif", [])%string)
      = lines ++ rest /\
    Forall2 (fun j e => exists m a b, e = LayerLine j m a b /\
               ((m = None /\ a = None /\ b = None) \/
                (exists a' b', a = Some a' /\ b = Some b' /\ (0 <= b' /\ b' <= a' /\ a' <= 1)%Q)))
      (seq 0 (length layers)) lines.
Proof.
  do 3 eexists.
  assert (H : propup_static pydict relu_dict_registry ex_hidden_params ex_images ("lif", [])%string =
              Ok (_, _, _)) by (vm_compute; reflexivity).
  split; [exact H|].
  exact (view_static_layer_lines relu_dict_registry ex_hidden_params ex_images ex_labels
           ("lif", [])%string _ _ _ H).
Defined.


Lemma static_branch_errors_witness :
  static_branch relu_dict_registry ex_onehot_params None (ex_images, [3; 3; 5; 7]) =
    mk_static_run [] (Raise AssertionError) /\
  exists errs1,
    static_branch relu_dict_registry ex_onehot_params (Some ("softlif", [("tau_rc", 2 # 100)]))%string
      (ex_images, ex_labels) =
    mk_static_run [StaticHeader "----- Static network with softlif -----"; StaticErrors errs1]%string
      (Raise KeyError).
Proof.
  split.
  - apply (static_branch_errors relu_dict_registry ex_onehot_params None ex_images [3; 3; 5; 7]).
    vm_compute; discriminate.
  - eexists.
    apply (static_branch_errors relu_dict_registry ex_onehot_params
             (Some ("softlif", [("tau_rc", 2 # 100)]))%string ex_images ex_labels);
      [reflexivity | vm_compute; reflexivity | simpl; intros [E | []]; discriminate].
Defined.

Lemma static_branch_runs_witness :
  exists errs1 errs2,
    static_branch relu_dict_registry ex_onehot_params None (ex_images, ex_labels) =
    mk_static_run
      ([StaticHeader "----- Static network with softlif -----"; StaticErrors errs1;
        StaticHeader "----- Static network with lif -----"; StaticErrors errs2]%string ++
       s_events (view_static relu_dict_registry ex_onehot_params ex_images ex_labels
                   ("lif", filter (fun kv => negb (String.eqb (fst kv) "sigma")) default_neuron_params)%string))
      (s_outcome (view_static relu_dict_registry ex_onehot_params ex_images ex_labels
                   ("lif", filter (fun kv => negb (String.eqb (fst kv) "sigma")) default_neuron_params)%string)).
Proof.
  do 2 eexists.
  apply (static_branch_runs relu_dict_registry ex_onehot_params None ex_images ex_labels (1 # 100));
    [reflexivity | left; reflexivity | vm_compute; reflexivity | vm_compute; reflexivity].
Defined.
